(** * Budget Automator: a shallow embedding of [budget_automator.py]

    The script reads a table of bank transactions, brings its column names to
    [date], [description], [amount], parses dates and amounts, labels every
    row with a category (first keyword found in the description) and a type
    (the sign of the amount), optionally keeps one calendar month, and sums
    income, expenses and savings.

    Modelling choices.
    - Text is [string]: ASCII text, one [ascii] per character.  [str.lower]
      and [str.strip] are modelled on ASCII; characters above 127 are left
      alone by [lower] and are never white space.
    - Amounts are IEEE binary64 numbers ([float]): the dtype float64, which
      pandas gives a column in which some amount is written with a decimal
      point; [NaN] is the missing value.  The sums are taken as numpy and
      pandas take them on that dtype, in their order of additions.  (A
      column of whole numbers only, and the column of a table without rows,
      is held as int64 and summed as integers: as long as no partial sum
      reaches 2^53 the figures are the same numbers, with an integer zero
      where binary64 has [-0.0].  That dtype is not modelled.)
    - The category rules are an association list: the order of the mapping
      and of each keyword list decides which category wins.
    - A table is the list of its labelled columns.  Two columns may carry
      one label, and [df[label]] is then a frame, not a series.
    - [raise SystemExit(msg)] and an uncaught Python exception are the two
      ways a run fails; both are constructors of [outcome].
    - The pandas conversions ([pd.to_datetime], [pd.to_numeric],
      [astype(str)]) are not code of the script: the pipeline takes them as
      parameters.  [Text] instantiates them for the worked examples.
    - The run is modelled from the table [pd.read_csv] has returned and the
      rules [yaml.safe_load] has returned (a mapping from labels to lists of
      keywords) up to the values the report is written from.  Reading the
      files, the report text, the plot and writing the results are not
      modelled, nor are their failures. *)

From stdpp Require Import base option list sorting strings gmap.
From Stdlib Require Import Ascii String ZArith Floats.

Open Scope string_scope.
Open Scope list_scope.

(** ** Python string operations *)

Module PyStr.

(** [c] is one of [A]..[Z]. *)
Definition is_upper (c : ascii) : bool :=
  let n := N_of_ascii c in (65 <=? n)%N && (n <=? 90)%N.

Definition lower_ascii (c : ascii) : ascii :=
  if is_upper c then ascii_of_N (N_of_ascii c + 32) else c.

(** [s.lower()] *)
Fixpoint lower (s : string) : string :=
  match s with
  | "" => ""
  | String c s' => String (lower_ascii c) (lower s')
  end.

(** The ASCII characters for which [str.isspace] holds: tab, line feed,
    vertical tab, form feed, carriage return, the four separators 28..31
    and the space. *)
Definition is_space (c : ascii) : bool :=
  let n := N_of_ascii c in
  ((9 <=? n)%N && (n <=? 13)%N) || ((28 <=? n)%N && (n <=? 32)%N).

Fixpoint lstrip (s : string) : string :=
  match s with
  | "" => ""
  | String c s' => if is_space c then lstrip s' else s
  end.

Definition rstrip (s : string) : string :=
  String.rev (lstrip (String.rev s)).

(** [s.strip()] *)
Definition strip (s : string) : string := rstrip (lstrip s).

(** [s.startswith(p)] *)
Fixpoint startswith (p s : string) : bool :=
  match p, s with
  | "", _ => true
  | String _ _, "" => false
  | String a p', String b s' => bool_decide (a = b) && startswith p' s'
  end.

(** [kw in d]: [kw] occurs in [d] as a contiguous run of characters. *)
Fixpoint contains (kw d : string) : bool :=
  startswith kw d ||
  match d with
  | "" => false
  | String _ d' => contains kw d'
  end.

(** Some character of [s] is an upper-case ASCII letter. *)
Fixpoint has_upper (s : string) : bool :=
  match s with
  | "" => false
  | String c s' => is_upper c || has_upper s'
  end.

(** The relation [contains] decides. *)
Definition substring_of (kw d : string) : Prop :=
  ∃ a b, d = a +:+ kw +:+ b.

End PyStr.

(** ** The categorizer *)

(** A rule set as [yaml.safe_load] returns it: category labels in the order
    of the document, each with its keywords in order. *)
Definition rules := list (string * list string).

(** The inner loop of [categorize]: [for kw in keywords: if kw in d].  It
    answers whether the [return cat] inside the loop is reached. *)
Fixpoint scan_keywords (d : string) (keywords : list string) : bool :=
  match keywords with
  | [] => false
  | kw :: rest => if PyStr.contains kw d then true else scan_keywords d rest
  end.

(** The outer loop, [for cat, keywords in rules.items()]: the category whose
    keyword list is the first to hold a keyword found in [d], if any. *)
Fixpoint first_match (d : string) (rs : rules) : option string :=
  match rs with
  | [] => None
  | (cat, keywords) :: rest =>
      if scan_keywords d keywords then Some cat else first_match d rest
  end.

Definition categorize (desc : string) (rs : rules) : string :=
  let d := PyStr.lower desc in
  match first_match d rs with
  | Some cat => cat
  | None => "uncategorized"
  end.

(** ** Ways a run ends *)

(** A computation of the script either yields a value, stops at a
    [raise SystemExit(msg)], or dies of an exception nobody catches (the
    interpreter prints the traceback).  The process exit status is 0 in the
    first case and 1 in the other two. *)
Inductive outcome (A : Type) : Type :=
  | Ok (a : A)
  | SystemExit (msg : string)
  | Raised (exc : string).
Arguments Ok {A} a.
Arguments SystemExit {A} msg.
Arguments Raised {A} exc.

(** Sequencing: the first failure ends the run.  With these instances
    [x ← m; k] runs [m] and, if it yields [x], goes on with [k]. *)
#[global] Instance outcome_ret : MRet outcome := λ A a, Ok a.
#[global] Instance outcome_bind : MBind outcome := λ A B k m,
  match m with
  | Ok a => k a
  | SystemExit msg => SystemExit msg
  | Raised exc => Raised exc
  end.

Definition exit_status {A : Type} (m : outcome A) : Z :=
  match m with
  | Ok _ => 0
  | SystemExit _ | Raised _ => 1
  end.

(** ** Tables *)

(** A [DataFrame] is its labelled columns, left to right.  Labels may repeat:
    pandas allows it, and [rename] can produce it. *)
Abbreviation DataFrame cell := (list (string * list cell)).

Definition columns {cell : Type} (df : DataFrame cell) : list string := df.*1.

(** What [df[label]] evaluates to: a [Series] when one column carries the
    label, a [Frame] of all of them when several do. *)
Inductive selection (cell : Type) : Type :=
  | Series (values : list cell)
  | Frame (df : DataFrame cell).
Arguments Series {cell} values.
Arguments Frame {cell} df.

(** The columns of [df] labelled [label], in table order. *)
Definition labelled {cell : Type} (label : string) (df : DataFrame cell)
  : DataFrame cell :=
  filter (λ col, col.1 = label) df.

(** [df[[k1, ..., kn]]]: for each key in turn, every column with that label.
    (pandas raises [KeyError] for a key no column has; [normalize_columns]
    only selects after checking that each key is there.) *)
Definition select {cell : Type} (keys : list string) (df : DataFrame cell)
  : DataFrame cell :=
  keys ≫= (λ k, labelled k df).

(** [df[label]] *)
Definition getitem {cell : Type} (label : string) (df : DataFrame cell)
  : outcome (selection cell) :=
  match labelled label df with
  | [] => Raised "KeyError"
  | [(_, values)] => Ok (Series values)
  | several => Ok (Frame several)
  end.

(** [df.rename(columns=mapping)]: a label that is a key of [mapping] is
    replaced by its value, any other label stays. *)
Definition rename {cell : Type} (mapping : gmap string string)
    (df : DataFrame cell) : DataFrame cell :=
  (λ col, (default col.1 (mapping !! col.1), col.2)) <$> df.

(** ** Column normalization *)

Definition need : list string := ["date"; "description"; "amount"].

Definition alias : gmap string string :=
  list_to_map
    [ ("posted date", "date");
      ("transaction date", "date");
      ("details", "description");
      ("memo", "description");
      ("amount (usd)", "amount");
      ("debit", "amount");
      ("credit", "amount") ].

(** The three branches of the loop body of [normalize_columns]. *)
Definition canonical (c_low : string) : string :=
  if bool_decide (c_low ∈ need) then c_low
  else match alias !! c_low with
       | Some name => name
       | None => c_low
       end.

(** [lcols = [c.lower().strip() for c in df.columns]] *)
Definition lcols (cols : list string) : list string :=
  (λ c, PyStr.strip (PyStr.lower c)) <$> cols.

(** The loop [for c_orig, c_low in zip(df.columns, lcols)] filling the
    dictionary [mapping]. *)
Definition build_mapping (cols : list string) : gmap string string :=
  foldl (λ mapping '(c_orig, c_low), <[c_orig := canonical c_low]> mapping)
        ∅ (zip cols (lcols cols)).

Definition missing_columns_msg : string :=
  "CSV must include date, description, amount columns (case-insensitive).".

(** The table after [df.rename(columns=mapping, inplace=True)]. *)
Definition renamed {cell : Type} (df : DataFrame cell) : DataFrame cell :=
  rename (build_mapping (columns df)) df.

Definition normalize_columns {cell : Type} (df : DataFrame cell)
  : outcome (DataFrame cell) :=
  let df := renamed df in
  if negb (forallb (λ n, bool_decide (n ∈ columns df)) need)
  then SystemExit missing_columns_msg
  else Ok (select need df).

(** ** Dates *)

(** The part of a pandas [Timestamp] the script looks at. *)
Record Timestamp : Type := { ts_year : Z; ts_month : Z; ts_day : Z }.

#[global] Instance Timestamp_eq_dec : EqDecision Timestamp.
Proof. solve_decision. Defined.

(** [n] written with exactly [width] decimal digits (zero padded), in front
    of [acc]. *)
Fixpoint zero_padded (width : nat) (n : Z) (acc : string) : string :=
  match width with
  | O => acc
  | S w =>
      zero_padded w (n / 10)
        (String (ascii_of_N (48 + Z.to_N (n mod 10))) acc)
  end.

(** [t.strftime("%Y-%m")], for the four-digit years a [Timestamp] can hold
    (1677 to 2262). *)
Definition strftime_Ym (t : Timestamp) : string :=
  zero_padded 4 (ts_year t) "" +:+ "-" +:+ zero_padded 2 (ts_month t) "".

(** ** Transactions *)

(** The three values of the [type] column (the strings ["income"],
    ["expense"], ["neutral"] of the script). *)
Inductive txn_type : Type := income | expense | neutral.

#[global] Instance txn_type_eq_dec : EqDecision txn_type.
Proof. solve_decision. Defined.

(** A row of the table once [main] has added the [category] and [type]
    columns. *)
Record txn : Type := {
  date : Timestamp;
  description : string;
  amount : float;
  category : string;
  type : txn_type
}.

(** The lambda of the [type] column:
    ["income" if x > 0 else "expense" if x < 0 else "neutral"]. *)
Definition type_of_amount (x : float) : txn_type :=
  if (0 <? x)%float then income
  else if (x <? 0)%float then expense
  else neutral.

(** The rows of a table given by its five columns (which, in a table, have
    one length). *)
Fixpoint make_rows (dates : list Timestamp) (descriptions : list string)
    (amounts : list float) (categories : list string) (types : list txn_type)
  : list txn :=
  match dates, descriptions, amounts, categories, types with
  | d :: dates, s :: descriptions, a :: amounts, c :: categories, t :: types =>
      {| date := d; description := s; amount := a; category := c; type := t |}
      :: make_rows dates descriptions amounts categories types
  | _, _, _, _, _ => []
  end.

(** [-df["amount"]], the effect of [--invert]. *)
Definition negated (amounts : list float) : list float :=
  PrimFloat.opp <$> amounts.

(** ** Month filter *)

(** Python's truth value of [args.month]: [None] and the empty string are
    false. *)
Definition given (month : option string) : bool :=
  match month with
  | None | Some "" => false
  | Some (String _ _) => true
  end.

Definition month_filter (df : list txn) (month : option string) : list txn :=
  match month with
  | None | Some "" => df
  | Some m => filter (λ r, strftime_Ym (date r) = m) df
  end.

(** ** Aggregation *)

(** [Series.sum()] of a float64 column without missing values is numpy's
    [add.reduce] over the array, and that is the routine [pairwise_sum] of
    numpy's [loops_utils.h.src], modelled by the next three definitions.

    The unrolled loop of [pairwise_sum], for a block of at least eight
    numbers: eight accumulators [r[0]] .. [r[7]], the first eight numbers in
    them, take the following numbers eight at a time; when fewer than eight
    are left the accumulators are added up as
    [((r0 + r1) + (r2 + r3)) + ((r4 + r5) + (r6 + r7))] and the numbers left
    are added one by one. *)
Fixpoint add_lanes (r0 r1 r2 r3 r4 r5 r6 r7 : float) (a : list float)
  : float :=
  match a with
  | x0 :: x1 :: x2 :: x3 :: x4 :: x5 :: x6 :: x7 :: a' =>
      add_lanes (r0 + x0) (r1 + x1) (r2 + x2) (r3 + x3)
                (r4 + x4) (r5 + x5) (r6 + x6) (r7 + x7) a'
  | _ =>
      foldl PrimFloat.add
        (((r0 + r1) + (r2 + r3)) + ((r4 + r5) + (r6 + r7)))%float a
  end.

(** [pairwise_sum] on a block it does not split: fewer than eight numbers are
    added one by one from [-0.0], more go through the unrolled loop. *)
Definition sum_block (a : list float) : float :=
  match a with
  | x0 :: x1 :: x2 :: x3 :: x4 :: x5 :: x6 :: x7 :: a' =>
      add_lanes x0 x1 x2 x3 x4 x5 x6 x7 a'
  | _ => foldl PrimFloat.add (-0)%float a
  end.

(** [pairwise_sum]: an array of more than 128 numbers is split in two, the
    first part of [n / 2] numbers rounded down to a multiple of eight, and
    the sums of the parts are added.  [depth] bounds the number of splits;
    the length of the array is more than enough ([pairwise_sum_depth]). *)
Fixpoint pairwise_sum (depth : nat) (a : list float) : float :=
  match depth with
  | S depth' =>
      if (128 <? List.length a)%nat
      then
        let n2 := (List.length a / 2 - (List.length a / 2) mod 8)%nat in
        (pairwise_sum depth' (take n2 a) + pairwise_sum depth' (drop n2 a))%float
      else sum_block a
  | O => sum_block a
  end.

(** [Series.sum()]: the reduction starts from its identity [0.0] and adds
    the pairwise sum of the column to it.  The sum of no numbers is [0.0].
    (The starting value leaves a trace in that case only, and for a column
    of nothing but [-0.0]; the amounts of income rows are above zero and
    those of expense rows below.) *)
Definition sum (amounts : list float) : float :=
  (0 + pairwise_sum (List.length amounts) amounts)%float.

(** The loop body of [group_sum] in pandas' [_libs/groupby.pyx], which
    [groupby(...).sum()] runs for a float64 column: Kahan's compensated
    summation.  [acc] is the pair of the running sum [sumx] and of the
    [compensation]; a compensation that is [NaN] (an infinite sum) is put
    back to zero. *)
Definition kahan_step (acc : float * float) (val : float) : float * float :=
  let y := (val - acc.2)%float in
  let t := (acc.1 + y)%float in
  let c := (t - acc.1 - y)%float in
  (t, if is_nan c then 0%float else c).

(** The sum of one group: its values taken in row order, from [0.0]. *)
Definition group_sum (values : list float) : float :=
  (foldl kahan_step (0%float, 0%float) values).1.

(** [a / b].  Python raises [ZeroDivisionError] when its own floats are
    divided by zero (numpy's scalars warn and go on); the model keeps the
    fault, so that a run free of it is a statement about the guard in front
    of the division. *)
Definition truediv (a b : float) : outcome float :=
  if (b =? 0)%float then Raised "ZeroDivisionError" else Ok (a / b)%float.

(** [df.groupby("category")["amount"].sum()]: one entry per category, the
    categories in ascending order, each with the [group_sum] of the amounts
    of its rows. *)
Definition groupby_category_sum (df : list txn) : list (string * float) :=
  (λ k, (k, group_sum (amount <$> filter (λ r, category r = k) df)))
    <$> merge_sort String.le (remove_dups (category <$> df)).

(** [Series.sort_values()]: ascending by value.  (Entries of equal value
    keep their order here; pandas' default sort makes no promise.) *)
Definition sort_values (s : list (string * float)) : list (string * float) :=
  merge_sort (λ a b, Is_true (a.2 <=? b.2)%float) s.

(** What a run that reaches its end has computed: the table written to
    [transactions_<tag>.csv], the four figures of the report and of the
    summary line, and the table written to [category_expenses_<tag>.csv]. *)
Record report : Type := {
  transactions : list txn;
  total_income : float;
  total_expense : float;
  savings : float;
  savings_rate : float;
  expenses_by_cat : list (string * float);
  month_tag : string
}.

(** The section [# Aggregations] of [main].  ([by_cat], the signed sum per
    category, is computed there and used nowhere; it is left out.)  The
    report text, the two tables and the plot are written from the values
    gathered here. *)
Definition aggregate (df : list txn) (tag : string) : outcome report :=
  let total_income := sum (amount <$> filter (λ r, type r = income) df) in
  let total_expense :=
    (- sum (amount <$> filter (λ r, type r = expense) df))%float in
  let savings := (total_income - total_expense)%float in
  savings_rate ←
    (if (0 <? total_income)%float
     then q ← truediv savings total_income; mret (q * 100)%float
     else mret 0%float);
  let expenses_by_cat :=
    sort_values
      ((λ e, (e.1, (- e.2)%float))
         <$> groupby_category_sum (filter (λ r, type r = expense) df)) in
  mret {| transactions := df;
          total_income := total_income;
          total_expense := total_expense;
          savings := savings;
          savings_rate := savings_rate;
          expenses_by_cat := expenses_by_cat;
          month_tag := tag |}.

(** ** Configuration *)

(** The document [default_categories] of [main], as [yaml.safe_load] reads
    it. *)
Definition default_categories : rules :=
  [ ("groceries", ["kroger"; "whole foods"; "trader joe"; "walmart"; "costco"]);
    ("dining", ["mcdonald"; "chipotle"; "starbucks"; "taco bell"; "pizza"; "panera"]);
    ("transport", ["uber"; "lyft"; "shell"; "exxon"; "chevron"; "mobil"; "gas"]);
    ("shopping", ["amazon"; "target"; "best buy"; "nike"; "adidas"]);
    ("subscriptions", ["netflix"; "spotify"; "apple"; "google storage"; "prime"]);
    ("utilities", ["verizon"; "xfinity"; "comcast"; "at&t"; "t-mobile"; "spectrum"]);
    ("health", ["cvs"; "walgreens"; "rite aid"; "walgreens"]);
    ("education", ["udemy"; "coursera"; "khan academy"]);
    ("income", ["payroll"; "paycheck"; "direct deposit"; "employer"]) ].

(** [load_yaml(path, default_text)].  [file] is what is at [path]: [None]
    when nothing is there, [Some None] for a file that holds no document
    ([safe_load] gives [None], and [None or {}] is the empty mapping),
    [Some (Some doc)] otherwise. *)
Definition load_yaml (file : option (option rules)) (default : rules) : rules :=
  match file with
  | Some (Some doc) => doc
  | Some None => []
  | None => default
  end.

(** The command line options the computation depends on.  ([--config] only
    names the currency printed in the report.) *)
Record args : Type := { month : option string; invert : bool }.

(** ** The run *)

Definition bad_dates_msg : string :=
  "Some dates could not be parsed. Please ensure 'date' column is valid.".

Definition bad_amounts_msg : string :=
  "Some amounts could not be parsed as numbers.".

Definition no_transactions_msg (m : string) : string :=
  "No transactions found for " +:+ m +:+ ".".

(** [categorize(s, cat_rules)] as [apply] calls it on a cell of the
    description column.  A missing value is a float, and [desc.lower()]
    raises [AttributeError] on it. *)
Definition categorize_cell (cat_rules : rules) (s : option string)
  : outcome string :=
  match s with
  | Some desc => Ok (categorize desc cat_rules)
  | None => Raised "AttributeError"
  end.

Section Main.

(** What a cell of the table read by [pd.read_csv] is, and the three
    pandas conversions [main] applies to a column.  A conversion sees the
    whole column (pandas settles on one date format per column) and the
    cell it converts; [errors="coerce"] turns a cell it cannot read into
    the missing value: [None] for a date ([NaT]), [NaN] for a number.
    [astype(str)] gives the text of a cell, or [None] for a cell that stays
    a missing value (pandas 3 keeps the missing values of a column it turns
    into text; before, they became the text [nan]). *)
Context {cell : Type}.
Variable to_datetime : list cell → cell → option Timestamp.
Variable astype_str : cell → option string.
Variable to_numeric : list cell → cell → float.

(** [df[label]] handed to a pandas function that wants a [Series]; [exc]
    is the exception that function raises when it gets a frame instead. *)
Definition series (label exc : string) (df : DataFrame cell)
  : outcome (list cell) :=
  sel ← getitem label df;
  match sel with
  | Series values => Ok values
  | Frame _ => Raised exc
  end.

(** [main] from [# Load CSV] to the sign inversion: the three columns,
    parsed.  A description is [None] where the cell is a missing value:
    [.str.strip()] leaves it one. *)
Definition parsed (a : args) (csv : DataFrame cell)
  : outcome (list Timestamp * list (option string) * list float) :=
  df ← normalize_columns csv;
  raw_dates ← series "date" "ValueError" df;
  let dates := to_datetime raw_dates <$> raw_dates in
  if existsb (λ d : option Timestamp, bool_decide (d = None)) dates
  then SystemExit bad_dates_msg
  else
    raw_descriptions ← series "description" "AttributeError" df;
    let descriptions :=
      (λ c, PyStr.strip <$> astype_str c) <$> (raw_descriptions : list cell) in
    raw_amounts ← series "amount" "TypeError" df;
    let amounts := to_numeric raw_amounts <$> raw_amounts in
    if existsb is_nan amounts
    then SystemExit bad_amounts_msg
    else
      let amounts := if invert a then negated amounts else amounts in
      Ok (omap id dates, descriptions, amounts).

(** [main] up to and including the [category] and [type] columns.
    [apply] calls [categorize] on the descriptions in turn; once all calls
    have returned, every description is a text. *)
Definition categorized (a : args) (cat_rules : rules) (csv : DataFrame cell)
  : outcome (list txn) :=
  '(dates, descriptions, amounts) ← parsed a csv;
  categories ← mapM (categorize_cell cat_rules) descriptions;
  let types := type_of_amount <$> amounts in
  Ok (make_rows dates (omap id descriptions) amounts categories types).

(** The section [# Month filter] of [main]. *)
Definition filtered (a : args) (df : list txn) : outcome (list txn) :=
  if given (month a)
  then
    match month_filter df (month a) with
    | [] => SystemExit (no_transactions_msg (default "" (month a)))
    | df => Ok df
    end
  else Ok df.

(** [main]: [categories_file] is what [--categories] points at, [csv] the
    table [pd.read_csv] returns. *)
Definition main (a : args) (categories_file : option (option rules))
    (csv : DataFrame cell) : outcome report :=
  let cat_rules := load_yaml categories_file default_categories in
  df ← categorized a cat_rules csv;
  df ← filtered a df;
  aggregate df (if given (month a) then default "" (month a) else "ALL").

(** *** The failures the specification lists

    The four conditions under which the specification has a run end with a
    non-zero status, each in the specification's words, read on the table
    after renaming. *)

(** Missing required columns: some canonical name labels no column. *)
Definition missing_columns (csv : DataFrame cell) : Prop :=
  ¬ ∀ n, n ∈ need → n ∈ columns (renamed csv).

(** Unparseable dates: some cell of a [date] column is no date. *)
Definition unparseable_date (csv : DataFrame cell) : Prop :=
  ∃ values c,
    ("date", values) ∈ renamed csv ∧ c ∈ values ∧
    to_datetime values c = None.

(** Unparseable amounts: some cell of an [amount] column is no number. *)
Definition unparseable_amount (csv : DataFrame cell) : Prop :=
  ∃ values c,
    ("amount", values) ∈ renamed csv ∧ c ∈ values ∧
    is_nan (to_numeric values c) = true.


(** Empty month selection: a month is asked for and the filter keeps no row
    of the categorized table. *)
Definition empty_selection (a : args) (cat_rules : rules)
    (csv : DataFrame cell) : Prop :=
  given (month a) = true ∧
  ∃ df, categorized a cat_rules csv = Ok df ∧ month_filter df (month a) = [].

End Main.

(** ** Plain text cells *)

(** Tables whose cells are the text of the file, with conversions that
    stand in for the pandas ones on the two formats the worked examples use:
    ISO dates [YYYY-MM-DD] and plain decimals [-ddd.dd] of at most fifteen
    digits.  Any other cell is taken as unreadable.  Both integers of the
    quotient below are binary64 numbers, so the quotient is the binary64
    number nearest to the decimal. *)
Module Text.

#[local] Open Scope Z_scope.

Definition digit (c : ascii) : option Z :=
  let n := N_of_ascii c in
  if (48 <=? n)%N && (n <=? 57)%N then Some (Z.of_N n - 48) else None.

(** The number written by the digits of [s] after the digits already read
    ([acc]); [None] when a character is not a digit. *)
Fixpoint digits (s : string) (acc : Z) : option Z :=
  match s with
  | "" => Some acc
  | String c s' => d ← digit c; digits s' (10 * acc + d)
  end.

Definition number (s : string) : option Z :=
  match s with
  | "" => None
  | _ => digits s 0
  end.

Definition iso_date (s : string) : option Timestamp :=
  match (String.length s =? 10)%nat,
        String.substring 4 1 s, String.substring 7 1 s with
  | true, "-", "-" =>
      y ← number (String.substring 0 4 s);
      m ← number (String.substring 5 2 s);
      d ← number (String.substring 8 2 s);
      if (1 <=? m) && (m <=? 12) && (1 <=? d) && (d <=? 31)
      then Some {| ts_year := y; ts_month := m; ts_day := d |}
      else None
  | _, _, _ => None
  end.

(** [s] up to its first [.], and what follows that point. *)
Fixpoint split_point (s : string) : string * option string :=
  match s with
  | "" => ("", None)
  | String "." s' => ("", Some s')
  | String c s' => let '(i, f) := split_point s' in (String c i, f)
  end.

Definition of_Z (n : Z) : float := PrimFloat.of_uint63 (Uint63.of_Z n).

(** An unsigned decimal [ddd] or [ddd.dd]. *)
Definition unsigned_decimal (s : string) : option float :=
  let '(i, f) := split_point s in
  let f := default "" f in
  if (15 <? String.length i + String.length f)%nat then None
  else
    n ← number (i +:+ f);
    Some (of_Z n / of_Z (10 ^ Z.of_nat (String.length f)))%float.

Definition decimal (s : string) : float :=
  match s with
  | String "-" s' => from_option PrimFloat.opp nan (unsigned_decimal s')
  | _ => default nan (unsigned_decimal s)
  end.

Definition to_datetime (_ : list string) (c : string) : option Timestamp :=
  iso_date c.

(** A field without text is read as a missing value. *)
Definition astype_str (c : string) : option string :=
  match c with
  | "" => None
  | _ => Some c
  end.

Definition to_numeric (_ : list string) (c : string) : float :=
  decimal c.

Definition run := main to_datetime astype_str to_numeric.

End Text.

(** ** The report writer *)

(** [Series.sort_values(ascending=False)]: descending by value (entries of
    equal value keep their order here). *)
Definition sort_values_descending (s : list (string * float))
  : list (string * float) :=
  merge_sort (λ a b, Is_true (b.2 <=? a.2)%float) s.

(** The entries listed under [## Top Expense Categories]:
    [expenses_by_cat.sort_values(ascending=False).head(10)]. *)
Definition top_expenses (rep : report) : list (string * float) :=
  take 10 (sort_values_descending (expenses_by_cat rep)).

(** The guard of the plot, [len(expenses_by_cat) > 0]. *)
Definition chart_written (rep : report) : bool :=
  bool_decide (0 < List.length (expenses_by_cat rep))%nat.

(** The files a finished run writes, in the order it writes them: the
    transaction table, the category table, the report and, behind its guard,
    the plot. *)
Definition written_files (rep : report) : list string :=
  [ "outputs/transactions_" +:+ month_tag rep +:+ ".csv";
    "outputs/category_expenses_" +:+ month_tag rep +:+ ".csv";
    "outputs/monthly_report_" +:+ month_tag rep +:+ ".md" ]
  ++ (if chart_written rep
      then ["plots/expenses_by_category_" +:+ month_tag rep +:+ ".png"]
      else []).

(** ** Inverted rows *)

(** The type of an amount once negated: income and expense change places. *)
Definition opposite (t : txn_type) : txn_type :=
  match t with
  | income => expense
  | expense => income
  | neutral => neutral
  end.

(** A row as [--invert] would have made it: the amount negated, the type
    that of the negated amount. *)
Definition inverted_row (r : txn) : txn :=
  {| date := date r;
     description := description r;
     amount := (- amount r)%float;
     category := category r;
     type := opposite (type r) |}.

(** A binary64 value of sign [s] ([true] for negative) that is not zero. *)
Definition sf_signed (s : bool) (x : spec_float) : Prop :=
  match x with
  | S754_infinity s' | S754_finite s' _ _ => s' = s
  | _ => False
  end.

(** ** White space *)

(** Every character of [s] is white space. *)
Fixpoint all_space (s : string) : bool :=
  match s with
  | "" => true
  | String c s' => PyStr.is_space c && all_space s'
  end.

(** [s] neither begins nor ends with a white space character. *)
Definition trimmed (s : string) : Prop :=
  (∀ c t, s = String c t → PyStr.is_space c = false)
  ∧ (∀ t c, s = t +:+ String c "" → PyStr.is_space c = false).

(** ** The specification's words

    Two notions the specification uses and the script leaves to pandas,
    written out here independently of the definitions above, to state what
    those compute. *)

(** "The sum of the amounts": [s] is a sum of the numbers [l] in binary64
    when the numbers are added up, each of them once, in some order and
    some bracketing.  The sum of no numbers is [0.0]. *)
Inductive sum_of : list float → float → Prop :=
  | sum_of_nil : sum_of [] 0%float
  | sum_of_one (x : float) : sum_of [x] x
  | sum_of_add (l l1 l2 : list float) (s1 s2 : float) :
      l1 ≠ [] → l2 ≠ [] → l ≡ₚ l1 ++ l2 →
      sum_of l1 s1 → sum_of l2 s2 → sum_of l (s1 + s2)%float.

(** The decimal digit that stands for [n] modulo ten. *)
Definition decimal_digit (n : Z) : ascii :=
  ascii_of_N (48 + Z.to_N (n mod 10)).

(** "Formatted as year-month": the text [YYYY-MM] of a year of four digits
    and a month, four digits, a hyphen, two digits. *)
Definition year_month (y m : Z) : string :=
  String (decimal_digit (y / 1000))
    (String (decimal_digit (y / 100))
       (String (decimal_digit (y / 10))
          (String (decimal_digit y)
             (String "-"
                (String (decimal_digit (m / 10))
                   (String (decimal_digit m) "")))))).

(** * Properties *)

(** [x ∈ [a; b; ...]] in hypothesis [H]: one goal per element, each closed by
    [tac]. *)
Tactic Notation "for_each_of" ident(H) tactic3(tac) :=
  repeat (apply elem_of_cons in H as [->|H]; [tac|]);
  by apply elem_of_nil in H.

(** ** The definitions on small inputs *)

Example lower_ex : PyStr.lower "Posted Date #1" = "posted date #1".
Proof. reflexivity. Qed.

Example strip_ex :
  PyStr.strip (String "009" "  Amount (USD) " +:+ String "010" "")
  = "Amount (USD)".
Proof. reflexivity. Qed.

Example contains_ex :
  PyStr.contains "kroger" "kroger #123" = true
  ∧ PyStr.contains "krogers" "kroger #123" = false
  ∧ PyStr.contains "" "kroger" = true.
Proof. by split_and!. Qed.

Example canonical_ex :
  canonical <$> ["date"; "posted date"; "memo"; "credit"; "balance"]
  = ["date"; "date"; "description"; "amount"; "balance"].
Proof. by vm_compute. Qed.

Example strftime_Ym_ex :
  strftime_Ym {| ts_year := 2024; ts_month := 1; ts_day := 5 |} = "2024-01".
Proof. reflexivity. Qed.

Example type_of_amount_ex :
  type_of_amount <$> [2000; -50; 0; -0; infinity; nan]%float
  = [income; expense; neutral; neutral; income; neutral].
Proof. reflexivity. Qed.

(** First rule wins, then first keyword; no keyword, no category. *)
Example categorize_ex :
  categorize "WALMART PIZZA" default_categories = "groceries"
  ∧ categorize "Pizza Hut" default_categories = "dining"
  ∧ categorize "ATM WITHDRAWAL" default_categories = "uncategorized".
Proof. by split_and!. Qed.

Example decimal_ex :
  Text.decimal <$> ["-50.00"; "2000.00"; "0.25"; "12"; "1,000.00"; ""]
  = [-50; 2000; 0.25; 12; nan; nan]%float.
Proof. by vm_compute. Qed.

(** Ten times 0.10 is 1 as numpy adds them up, not as they come one after
    the other; and 0.10, 0.20, 0.30 are 0.6 with compensation, not
    without. *)
Example sum_ex :
  sum (replicate 10 0x1.999999999999ap-4%float) = 1%float
  ∧ foldl PrimFloat.add 0%float (replicate 10 0x1.999999999999ap-4%float)
    = 0x1.fffffffffffffp-1%float
  ∧ group_sum [0x1.999999999999ap-4; 0x1.999999999999ap-3;
               0x1.3333333333333p-2]%float
    = 0x1.3333333333333p-1%float
  ∧ sum [0x1.999999999999ap-4; 0x1.999999999999ap-3;
         0x1.3333333333333p-2]%float
    = 0x1.3333333333334p-1%float
  ∧ sum [] = 0%float.
Proof. by vm_compute. Qed.

(** A description that is a missing value ends the run at [categorize]. *)
Example missing_description_ex :
  Text.run {| month := None; invert := false |} None
    [ ("date", ["2024-01-05"; "2024-01-10"]);
      ("description", ["KROGER"; ""]);
      ("amount", ["-50.00"; "2000.00"]) ]
  = Raised "AttributeError".
Proof. by vm_compute. Qed.

(** ** Strings *)

Section StringFacts.

Import PyStr.

Lemma startswith_spec (p s : string) :
  startswith p s = true ↔ ∃ b, s = p +:+ b.
Proof.
  revert s. induction p as [|a p IH]; intros s; simpl.
  - split; [intros _; by exists s | done].
  - destruct s as [|b s].
    + split; [done | intros [? ?]; discriminate].
    + rewrite andb_true_iff, bool_decide_eq_true, IH. split.
      * intros [-> [t ->]]. by exists t.
      * intros [t Ht]. injection Ht as -> ->. eauto.
Qed.

Lemma contains_spec (kw d : string) :
  contains kw d = true ↔ substring_of kw d.
Proof.
  unfold substring_of. induction d as [|c d IH].
  - simpl. rewrite orb_false_r, startswith_spec. split.
    + intros [b Hb]. by exists "", b.
    + intros [a [b Hab]]. destruct a as [|x a]; [by exists b | discriminate].
  - cbn [contains]. rewrite orb_true_iff, startswith_spec, IH. split.
    + intros [[b Hb] | [a [b Hab]]].
      * by exists "", b.
      * exists (String c a), b. by rewrite Hab.
    + intros [[|x a] [b Hab]].
      * left. by exists b.
      * right. injection Hab as -> ->. by exists a, b.
Qed.

Lemma lower_ascii_not_upper (c : ascii) : is_upper (lower_ascii c) = false.
Proof. by destruct c as [[] [] [] [] [] [] [] []]. Qed.

Lemma has_upper_lower (s : string) : has_upper (lower s) = false.
Proof.
  induction s as [|c s IH]; [done|].
  simpl. by rewrite lower_ascii_not_upper, IH.
Qed.

Lemma has_upper_app (a b : string) :
  has_upper (a +:+ b) = has_upper a || has_upper b.
Proof.
  induction a as [|c a IH]; [done|].
  change (String c a +:+ b) with (String c (a +:+ b)).
  simpl. by rewrite IH, orb_assoc.
Qed.

(** An upper-case letter of the keyword would be one of the text. *)
Lemma contains_has_upper (kw d : string) :
  contains kw d = true → has_upper kw = true → has_upper d = true.
Proof.
  rewrite contains_spec. intros [a [b ->]] Hkw.
  by rewrite !has_upper_app, Hkw, orb_true_r.
Qed.

Lemma contains_lower_no_upper (kw desc : string) :
  has_upper kw = true → contains kw (lower desc) = false.
Proof.
  intros Hkw. destruct (contains kw (lower desc)) eqn:E; [|done].
  pose proof (contains_has_upper _ _ E Hkw) as H.
  by rewrite has_upper_lower in H.
Qed.

End StringFacts.

(** ** The categorizer *)

Lemma scan_keywords_true (d : string) (keywords : list string) :
  scan_keywords d keywords = true ↔
  ∃ kpre kw kpost,
    keywords = kpre ++ kw :: kpost ∧
    PyStr.contains kw d = true ∧
    ∀ k, k ∈ kpre → PyStr.contains k d = false.
Proof.
  induction keywords as [|k ks IH]; simpl.
  - split; [done | intros (kpre & kw & kpost & H & _)].
    by destruct kpre.
  - destruct (PyStr.contains k d) eqn:E.
    + split; [intros _ | done].
      exists [], k, ks. split_and!; [done.. | intros ? ?%elem_of_nil; done].
    + rewrite IH. split.
      * intros (kpre & kw & kpost & -> & Hkw & Hpre).
        exists (k :: kpre), kw, kpost. split_and!; [done..|].
        intros k' [->|?]%elem_of_cons; auto.
      * intros (kpre & kw & kpost & Heq & Hkw & Hpre).
        destruct kpre as [|k' kpre]; simplify_eq/=; [congruence|].
        exists kpre, kw, kpost. split_and!; [done..|].
        intros ? ?. apply Hpre. by right.
Qed.

Lemma scan_keywords_false (d : string) (keywords : list string) :
  scan_keywords d keywords = false ↔
  ∀ k, k ∈ keywords → PyStr.contains k d = false.
Proof.
  induction keywords as [|k ks IH]; simpl.
  - split; [intros _ ? ?%elem_of_nil; done | done].
  - destruct (PyStr.contains k d) eqn:E.
    + split; [done | intros H]. rewrite <- E. apply H. by left.
    + rewrite IH. split.
      * intros H k' [->|?]%elem_of_cons; auto.
      * intros H k' ?. apply H. by right.
Qed.

Lemma first_match_some (d : string) (rs : rules) (cat : string) :
  first_match d rs = Some cat ↔
  ∃ pre keywords post,
    rs = pre ++ (cat, keywords) :: post ∧
    scan_keywords d keywords = true ∧
    ∀ c ks, (c, ks) ∈ pre → scan_keywords d ks = false.
Proof.
  induction rs as [|[c ks] rs IH]; simpl.
  - split; [done | intros (pre & ? & ? & H & _)]. by destruct pre.
  - destruct (scan_keywords d ks) eqn:E.
    + split.
      * intros [= ->]. exists [], ks, rs.
        split_and!; [done.. | intros ? ? ?%elem_of_nil; done].
      * intros (pre & kws & post & Heq & Hk & Hpre).
        destruct pre as [|[c' ks'] pre]; simpl in Heq.
        -- by injection Heq as -> _ _.
        -- injection Heq as -> -> _.
           rewrite (Hpre c' ks') in E; [done | by left].
    + rewrite IH. split.
      * intros (pre & kws & post & -> & Hk & Hpre).
        exists ((c, ks) :: pre), kws, post. split_and!; [done..|].
        intros c' ks' [[= -> ->]|?]%elem_of_cons; eauto.
      * intros (pre & kws & post & Heq & Hk & Hpre).
        destruct pre as [|[c' ks'] pre]; simplify_eq/=; [congruence|].
        exists pre, kws, post. split_and!; [done..|].
        intros ? ? ?. eapply Hpre. by right.
Qed.

Lemma first_match_none (d : string) (rs : rules) :
  first_match d rs = None ↔
  ∀ c ks, (c, ks) ∈ rs → scan_keywords d ks = false.
Proof.
  induction rs as [|[c ks] rs IH]; simpl.
  - split; [intros _ ? ? ?%elem_of_nil; done | done].
  - destruct (scan_keywords d ks) eqn:E.
    + split; [done | intros H]. rewrite (H c ks) in E; [done | by left].
    + rewrite IH. split.
      * intros H c' ks' [[= -> ->]|?]%elem_of_cons; eauto.
      * intros H c' ks' ?. eapply H. by right.
Qed.

(** ** Binary64 numbers *)

Section FloatFacts.

#[local] Open Scope float_scope.

Lemma opp_involutive (x : float) : - - x = x.
Proof.
  apply Prim2SF_inj. rewrite !opp_spec.
  by destruct (Prim2SF x) as [[]|[]| |[] m e].
Qed.

Lemma SFcompare_refl (s : spec_float) :
  SFcompare s s = match s with S754_nan => None | _ => Some Eq end.
Proof.
  destruct s as [[]|[]| |[] m e]; try done; simpl;
    by rewrite Z.compare_refl, Pos.compare_cont_refl.
Qed.

Lemma is_nan_Prim2SF (x : float) :
  is_nan x = match Prim2SF x with S754_nan => true | _ => false end.
Proof.
  unfold is_nan. rewrite eqb_spec. unfold SFeqb. rewrite SFcompare_refl.
  by destruct (Prim2SF x).
Qed.

Lemma is_nan_opp (x : float) : is_nan (- x) = is_nan x.
Proof.
  rewrite !is_nan_Prim2SF, opp_spec. by destruct (Prim2SF x).
Qed.

(** A number that is not [NaN] is above, below or equal to zero, and only
    one of the three. *)
Lemma sign_cases (x : float) :
  is_nan x = false →
  ((0 <? x) = true ∧ (x <? 0) = false ∧ (x =? 0) = false)
  ∨ ((0 <? x) = false ∧ (x <? 0) = true ∧ (x =? 0) = false)
  ∨ ((0 <? x) = false ∧ (x <? 0) = false ∧ (x =? 0) = true).
Proof.
  rewrite is_nan_Prim2SF, !ltb_spec, eqb_spec.
  change (Prim2SF 0) with (S754_zero false).
  destruct (Prim2SF x) as [[]|[]| |[] m e]; cbn; intros; auto; done.
Qed.

(** Without the premise: the three tests exclude each other. *)
Lemma sign_exclusive (x : float) :
  ((0 <? x) = true → (x <? 0) = false ∧ (x =? 0) = false)
  ∧ ((x <? 0) = true → (0 <? x) = false ∧ (x =? 0) = false)
  ∧ ((x =? 0) = true → (0 <? x) = false ∧ (x <? 0) = false).
Proof.
  rewrite !ltb_spec, eqb_spec.
  change (Prim2SF 0) with (S754_zero false).
  destruct (Prim2SF x) as [[]|[]| |[] m e]; cbn; split_and!; intros; done.
Qed.

(** *** Negation and rounding *)

Lemma binary_round_aux_opp (s : bool) (m e : Z) (l : location) :
  binary_round_aux prec emax (negb s) m e l
  = SFopp (binary_round_aux prec emax s m e l).
Proof.
  unfold binary_round_aux.
  destruct (shr_fexp prec emax m e l) as [mrs' e'].
  destruct (shr_fexp prec emax _ e' loc_Exact) as [mrs'' e''].
  destruct (shr_m mrs'') as [|p|p]; [done| |done].
  by destruct (e'' <=? emax - prec)%Z.
Qed.

Lemma binary_round_opp (s : bool) (m : positive) (e : Z) :
  binary_round prec emax (negb s) m e = SFopp (binary_round prec emax s m e).
Proof.
  unfold binary_round. destruct (shl_align m e _) as [mz ez].
  apply binary_round_aux_opp.
Qed.

(** *** Sums of numbers of one sign do not vanish *)

Lemma digits2_pos_size (p : positive) : digits2_pos p = Pos.size p.
Proof. induction p; simpl; congruence. Qed.

Lemma Zdigits2_log2 (p : positive) :
  Zdigits2 (Z.pos p) = (Z.log2 (Z.pos p) + 1)%Z.
Proof.
  destruct p; simpl; rewrite ?digits2_pos_size; lia.
Qed.

Lemma Zdigits2_mono (a b : Z) :
  (0 < a ≤ b)%Z → (Zdigits2 a ≤ Zdigits2 b)%Z.
Proof.
  intros [Ha Hab]. destruct a as [|a|a], b as [|b|b]; try lia.
  rewrite !Zdigits2_log2.
  pose proof (Z.log2_le_mono (Z.pos a) (Z.pos b) Hab). lia.
Qed.

Lemma shr_1_digits (mrs : shr_record) :
  (0 ≤ shr_m mrs)%Z →
  (0 ≤ shr_m (shr_1 mrs))%Z
  ∧ Zdigits2 (shr_m (shr_1 mrs)) = (0 `max` (Zdigits2 (shr_m mrs) - 1))%Z.
Proof.
  destruct mrs as [m r s]. simpl.
  destruct m as [|[p|p|]|[p|p|]]; simpl; lia.
Qed.

Lemma iter_pos_shr_1_digits (p : positive) (mrs : shr_record) :
  (0 ≤ shr_m mrs)%Z →
  (0 ≤ shr_m (iter_pos shr_1 p mrs))%Z
  ∧ Zdigits2 (shr_m (iter_pos shr_1 p mrs))
    = (0 `max` (Zdigits2 (shr_m mrs) - Z.pos p))%Z.
Proof.
  revert mrs. induction p as [p IH|p IH|]; intros mrs H; simpl.
  - destruct (shr_1_digits mrs H) as [H1 E1].
    destruct (IH _ H1) as [H2 E2]. destruct (IH _ H2) as [H3 E3].
    split; [done|]. rewrite E3, E2, E1. lia.
  - destruct (IH _ H) as [H2 E2]. destruct (IH _ H2) as [H3 E3].
    split; [done|]. rewrite E3, E2. lia.
  - by apply shr_1_digits.
Qed.

(** A mantissa and exponent that stand for a number not below the least
    positive one keep doing so through the shift to the format. *)
Lemma shr_fexp_pos (m e : Z) (l : location) :
  (0 < m)%Z → (emin < Zdigits2 m + e)%Z →
  (0 < shr_m (shr_fexp prec emax m e l).1)%Z
  ∧ (emin
     < Zdigits2 (shr_m (shr_fexp prec emax m e l).1)
       + (shr_fexp prec emax m e l).2)%Z.
Proof.
  intros Hm He. unfold shr_fexp, shr.
  assert (shr_m (shr_record_of_loc m l) = m) as Hrec by (by destruct l as [|[]]).
  destruct (fexp prec emax (Zdigits2 m + e) - e)%Z as [|k|k] eqn:Ek; simpl;
    rewrite ?Hrec; try done.
  destruct (iter_pos_shr_1_digits k (shr_record_of_loc m l)) as [H0 E];
    [rewrite Hrec; lia|].
  rewrite Hrec in E.
  assert (0 < Zdigits2 m - Z.pos k)%Z as Hd.
  { unfold fexp in Ek. unfold prec in *. lia. }
  assert (shr_m (iter_pos shr_1 k (shr_record_of_loc m l)) ≠ 0%Z) as Hne.
  { intros H. rewrite H in E. simpl in E. lia. }
  split; [lia|]. rewrite E. lia.
Qed.

Lemma round_nearest_even_bounds (m : Z) (l : location) :
  (m ≤ round_nearest_even m l ≤ m + 1)%Z.
Proof.
  destruct l as [|[]]; simpl; try lia. destruct (Z.even m); lia.
Qed.

Lemma binary_round_aux_nonzero (sx : bool) (mx ex : Z) (lx : location) :
  (0 < mx)%Z → (emin < Zdigits2 mx + ex)%Z →
  sf_signed sx (binary_round_aux prec emax sx mx ex lx).
Proof.
  intros Hm He. unfold binary_round_aux.
  pose proof (shr_fexp_pos mx ex lx Hm He) as [H1 E1].
  destruct (shr_fexp prec emax mx ex lx) as [mrs' e']. simpl in H1, E1.
  pose proof (round_nearest_even_bounds (shr_m mrs') (loc_of_shr_record mrs'))
    as Hr.
  set (m1 := round_nearest_even (shr_m mrs') (loc_of_shr_record mrs')) in *.
  assert (Zdigits2 (shr_m mrs') ≤ Zdigits2 m1)%Z as Hd
    by (apply Zdigits2_mono; lia).
  pose proof (shr_fexp_pos m1 e' loc_Exact) as [H2 _]; [lia..|].
  destruct (shr_fexp prec emax m1 e' loc_Exact) as [mrs'' e'']. simpl in H2.
  destruct (shr_m mrs'') as [|m|m]; [lia | | lia].
  by destruct (e'' <=? emax - prec)%Z.
Qed.

Lemma digits2_pos_iter_xO (m d : positive) :
  Z.pos (digits2_pos (Pos.iter xO m d)) = (Z.pos (digits2_pos m) + Z.pos d)%Z.
Proof.
  induction d as [|d IH] using Pos.peano_ind.
  - simpl. lia.
  - rewrite Pos.iter_succ. simpl. lia.
Qed.

Lemma shl_align_digits (m : positive) (e e' : Z) :
  (Z.pos (digits2_pos (shl_align m e e').1) + (shl_align m e e').2
   = Z.pos (digits2_pos m) + e)%Z.
Proof.
  unfold shl_align. destruct (e' - e)%Z as [|d|d] eqn:E; simpl; [done..|].
  rewrite digits2_pos_iter_xO. lia.
Qed.

Lemma binary_round_nonzero (sx : bool) (mx : positive) (ex : Z) :
  (emin < Z.pos (digits2_pos mx) + ex)%Z →
  sf_signed sx (binary_round prec emax sx mx ex).
Proof.
  intros He. unfold binary_round.
  pose proof (shl_align_digits mx ex
                (fexp prec emax (Z.pos (digits2_pos mx) + ex))) as Hd.
  destruct (shl_align mx ex _) as [mz ez]. simpl in Hd.
  apply binary_round_aux_nonzero; [done|]. simpl. lia.
Qed.

Lemma valid_binary_emin (s : bool) (m : positive) (e : Z) :
  valid_binary (S754_finite s m e) = true → (emin ≤ e)%Z.
Proof.
  unfold valid_binary, SpecFloat.valid_binary, bounded, canonical_mantissa, fexp.
  intros [H _]%andb_true_iff. apply Z.eqb_eq in H. lia.
Qed.

(** The sum of two numbers of sign [s], neither of them zero, is a number of
    sign [s] and not zero; and negating both negates the sum. *)
Lemma SF64add_signed (s : bool) (x y : spec_float) :
  valid_binary x = true → valid_binary y = true →
  sf_signed s x → sf_signed s y →
  sf_signed s (SF64add x y)
  ∧ SF64add (SFopp x) (SFopp y) = SFopp (SF64add x y).
Proof.
  unfold SF64add, SFadd.
  destruct x as [sa|sa| |sa ma ea], y as [sb|sb| |sb mb eb]; try done;
    simpl sf_signed; intros Vx Vy Hx Hy; subst; try done.
  all: try (by destruct s).
  cbn [SFopp]. apply valid_binary_emin in Vx, Vy.
    pose proof (shl_align_digits ma ea (ea `min` eb)) as Hd.
    assert ((shl_align ma ea (ea `min` eb)).2 = (ea `min` eb)%Z) as He.
    { unfold shl_align. destruct (ea `min` eb - ea)%Z eqn:E; simpl; lia. }
    rewrite He in Hd. clear He.
    set (a := (shl_align ma ea (ea `min` eb)).1) in *.
    set (b := (shl_align mb eb (ea `min` eb)).1).
    assert (emin
            < Z.pos (digits2_pos (a + b)) + ea `min` eb)%Z as Hsum.
    { pose proof (Zdigits2_mono (Z.pos a) (Z.pos (a + b))) as Hm.
      simpl in Hm. lia. }
  destruct s.
  - change (binary_normalize prec emax
                (cond_Zopp true (Z.pos a) + cond_Zopp true (Z.pos b))
                (ea `min` eb) false)
        with (binary_round prec emax true (a + b) (ea `min` eb)).
      change (binary_normalize prec emax
                (cond_Zopp (negb true) (Z.pos a)
                 + cond_Zopp (negb true) (Z.pos b))
                (ea `min` eb) false)
        with (binary_round prec emax (negb true) (a + b) (ea `min` eb)).
      split; [by apply binary_round_nonzero | apply binary_round_opp].
  - change (binary_normalize prec emax
                (cond_Zopp false (Z.pos a) + cond_Zopp false (Z.pos b))
                (ea `min` eb) false)
        with (binary_round prec emax false (a + b) (ea `min` eb)).
      change (binary_normalize prec emax
                (cond_Zopp (negb false) (Z.pos a)
                 + cond_Zopp (negb false) (Z.pos b))
                (ea `min` eb) false)
        with (binary_round prec emax (negb false) (a + b) (ea `min` eb)).
      split; [by apply binary_round_nonzero | apply binary_round_opp].
Qed.

Lemma add_signed (s : bool) (x y : float) :
  sf_signed s (Prim2SF x) → sf_signed s (Prim2SF y) →
  sf_signed s (Prim2SF (x + y)) ∧ - x + - y = - (x + y).
Proof.
  intros Hx Hy.
  destruct (SF64add_signed s _ _ (Prim2SF_valid x) (Prim2SF_valid y) Hx Hy)
    as [H1 H2].
  split; [by rewrite add_spec|].
  apply Prim2SF_inj. by rewrite opp_spec, !add_spec, !opp_spec.
Qed.

(** [-0.0] is neutral on the left, [0.0] on every number but [-0.0]. *)
Lemma add_neg_zero_l (x : float) : -0 + x = x.
Proof.
  apply Prim2SF_inj. rewrite add_spec.
  change (Prim2SF (-0)) with (S754_zero true).
  by destruct (Prim2SF x) as [[]|[]| |[] m e].
Qed.

Lemma add_zero_l_signed (s : bool) (x : float) :
  sf_signed s (Prim2SF x) → 0 + x = x.
Proof.
  intros H. apply Prim2SF_inj. rewrite add_spec.
  change (Prim2SF 0) with (S754_zero false).
  by destruct (Prim2SF x) as [[]|[]| |[] m e].
Qed.

End FloatFacts.

(** ** Sums *)

Section PairwiseInduction.

#[local] Open Scope float_scope.

(** What holds of the pairwise sum of a column and of the pairwise sum of
    its image under [f], for a relation [P] between some numbers of the
    column, their partial sum and the partial sum of their images: it is
    enough that [P] holds of one number and goes through an addition and a
    reordering. *)
Variable f : float → float.
Variable P : list float → float → float → Prop.
Hypothesis P_one : ∀ x, P [x] x (f x).
Hypothesis P_add : ∀ l1 l2 s1 s2 s1' s2',
  P l1 s1 s1' → P l2 s2 s2' → P (l1 ++ l2) (s1 + s2) (s1' + s2').
Hypothesis P_perm : ∀ l l' s s', l ≡ₚ l' → P l s s' → P l' s s'.

Lemma foldl_add_P (a l : list float) (s s' : float) :
  P l s s' →
  P (l ++ a) (foldl PrimFloat.add s a) (foldl PrimFloat.add s' (f <$> a)).
Proof.
  revert l s s'. induction a as [|x a IH]; intros l s s' H.
  - by rewrite app_nil_r.
  - rewrite cons_middle, app_assoc. apply IH, P_add; [done | apply P_one].
Qed.

Lemma lanes_P (l0 l1 l2 l3 l4 l5 l6 l7 : list float)
    (r0 r1 r2 r3 r4 r5 r6 r7 r0' r1' r2' r3' r4' r5' r6' r7' : float) :
  P l0 r0 r0' → P l1 r1 r1' → P l2 r2 r2' → P l3 r3 r3' →
  P l4 r4 r4' → P l5 r5 r5' → P l6 r6 r6' → P l7 r7 r7' →
  P (((l0 ++ l1) ++ (l2 ++ l3)) ++ ((l4 ++ l5) ++ (l6 ++ l7)))
    (((r0 + r1) + (r2 + r3)) + ((r4 + r5) + (r6 + r7)))
    (((r0' + r1') + (r2' + r3')) + ((r4' + r5') + (r6' + r7'))).
Proof. intros. by repeat apply P_add. Qed.

Lemma add_lanes_P (a : list float) :
  ∀ (l0 l1 l2 l3 l4 l5 l6 l7 : list float)
    (r0 r1 r2 r3 r4 r5 r6 r7 r0' r1' r2' r3' r4' r5' r6' r7' : float),
  P l0 r0 r0' → P l1 r1 r1' → P l2 r2 r2' → P l3 r3 r3' →
  P l4 r4 r4' → P l5 r5 r5' → P l6 r6 r6' → P l7 r7 r7' →
  P (l0 ++ l1 ++ l2 ++ l3 ++ l4 ++ l5 ++ l6 ++ l7 ++ a)
    (add_lanes r0 r1 r2 r3 r4 r5 r6 r7 a)
    (add_lanes r0' r1' r2' r3' r4' r5' r6' r7' (f <$> a)).
Proof.
  remember (List.length a) as n eqn:Hn. revert a Hn.
  induction n as [n IH] using lt_wf_ind.
  intros a Hn l0 l1 l2 l3 l4 l5 l6 l7
    r0 r1 r2 r3 r4 r5 r6 r7 r0' r1' r2' r3' r4' r5' r6' r7'
    H0 H1 H2 H3 H4 H5 H6 H7.
  pose proof (lanes_P _ _ _ _ _ _ _ _ _ _ _ _ _ _ _ _ _ _ _ _ _ _ _ _
                H0 H1 H2 H3 H4 H5 H6 H7) as Hall.
  destruct a as [|x0 [|x1 [|x2 [|x3 [|x4 [|x5 [|x6 [|x7 a']]]]]]]].
  1-8: eapply P_perm; [|exact (foldl_add_P _ _ _ _ Hall)]; solve_Permutation.
  cbn [add_lanes fmap list_fmap].
  eapply P_perm;
    [|apply (IH (List.length a')
               ltac:(simpl in Hn; lia) a' eq_refl
               (l0 ++ [x0]) (l1 ++ [x1]) (l2 ++ [x2]) (l3 ++ [x3])
               (l4 ++ [x4]) (l5 ++ [x5]) (l6 ++ [x6]) (l7 ++ [x7]));
      by apply P_add].
  solve_Permutation.
Qed.

Lemma sum_block_P (a : list float) :
  a ≠ [] → P a (sum_block a) (sum_block (f <$> a)).
Proof.
  intros Ha.
  destruct a as [|x0 [|x1 [|x2 [|x3 [|x4 [|x5 [|x6 [|x7 a']]]]]]]]; [done|..].
  1-7: cbn [sum_block fmap list_fmap foldl]; rewrite !add_neg_zero_l;
       exact (foldl_add_P _ [x0] _ _ (P_one x0)).
  exact (add_lanes_P a' [x0] [x1] [x2] [x3] [x4] [x5] [x6] [x7]
           _ _ _ _ _ _ _ _ _ _ _ _ _ _ _ _
           (P_one x0) (P_one x1) (P_one x2) (P_one x3)
           (P_one x4) (P_one x5) (P_one x6) (P_one x7)).
Qed.

(** Where a long column is split, both parts have numbers. *)
Lemma split_point_bounds (n : nat) :
  (128 < n)%nat → (0 < n / 2 - (n / 2) mod 8 < n)%nat.
Proof.
  intros Hn.
  assert (64 ≤ n / 2)%nat by (apply Nat.div_le_lower_bound; lia).
  assert ((n / 2) mod 8 < 8)%nat by (apply Nat.mod_upper_bound; lia).
  assert (n / 2 < n)%nat by (apply Nat.div_lt; lia).
  lia.
Qed.

Lemma pairwise_sum_P (depth : nat) (a : list float) :
  a ≠ [] → P a (pairwise_sum depth a) (pairwise_sum depth (f <$> a)).
Proof.
  revert a. induction depth as [|depth IH]; intros a Ha;
    [by apply sum_block_P|].
  cbn [pairwise_sum]. rewrite length_fmap.
  destruct (128 <? List.length a)%nat eqn:E; [|by apply sum_block_P].
  apply Nat.ltb_lt, split_point_bounds in E.
  set (n2 := (List.length a / 2 - (List.length a / 2) mod 8)%nat) in *.
  rewrite <- fmap_take, <- fmap_drop.
  eapply P_perm; [|apply P_add; apply IH].
  - by rewrite take_drop.
  - intros H%(f_equal List.length). rewrite length_take in H. simpl in H. lia.
  - intros H%(f_equal List.length). rewrite length_drop in H. simpl in H. lia.
Qed.

End PairwiseInduction.

Section Sums.

#[local] Open Scope float_scope.

(** The depth given to [pairwise_sum] is enough: any other depth that is at
    least the length of the column gives the same sum. *)
Lemma pairwise_sum_depth (d d' : nat) (a : list float) :
  (List.length a ≤ d)%nat → (List.length a ≤ d')%nat →
  pairwise_sum d a = pairwise_sum d' a.
Proof.
  revert d' a. induction d as [|d IH]; intros d' a Hd Hd'.
  - destruct a; [|simpl in Hd; lia]. by destruct d'.
  - destruct d' as [|d'].
    + destruct a; [done | simpl in Hd'; lia].
    + cbn [pairwise_sum].
      destruct (128 <? List.length a)%nat eqn:E; [|done].
      apply Nat.ltb_lt, split_point_bounds in E.
      set (n2 := (List.length a / 2 - (List.length a / 2) mod 8)%nat) in *.
      f_equal; apply IH; rewrite ?length_take, ?length_drop; lia.
Qed.

(** So a column of more than 128 numbers is summed as its two parts are. *)
Lemma pairwise_sum_split (a : list float) :
  (128 < List.length a)%nat →
  let n2 := (List.length a / 2 - (List.length a / 2) mod 8)%nat in
  pairwise_sum (List.length a) a
  = pairwise_sum (List.length (take n2 a)) (take n2 a)
    + pairwise_sum (List.length (drop n2 a)) (drop n2 a).
Proof.
  intros Hn n2. pose proof (split_point_bounds _ Hn) as Hb. fold n2 in Hb.
  destruct (List.length a) as [|d] eqn:El; [lia|].
  cbn [pairwise_sum]. rewrite El.
  destruct (128 <? S d)%nat eqn:E; [|apply Nat.ltb_ge in E; lia].
  fold n2. f_equal; apply pairwise_sum_depth;
    rewrite ?length_take, ?length_drop; lia.
Qed.

Lemma sum_nil : sum [] = 0.
Proof. reflexivity. Qed.

(** Of fewer than eight numbers the sum is taken in row order. *)
Lemma sum_short (x : float) (l : list float) :
  (List.length l < 7)%nat → sum (x :: l) = 0 + foldl PrimFloat.add x l.
Proof.
  intros Hl. unfold sum.
  destruct l as [|x1 [|x2 [|x3 [|x4 [|x5 [|x6 [|x7 l]]]]]]];
    try (simpl in Hl; lia);
    cbn [List.length pairwise_sum Nat.ltb Nat.leb sum_block foldl];
    by rewrite add_neg_zero_l.
Qed.

Lemma sum_of_Permutation (l l' : list float) (s : float) :
  l ≡ₚ l' → sum_of l s → sum_of l' s.
Proof.
  intros Hp H. destruct H as [|x|l l1 l2 s1 s2 H1 H2 Hl Hs1 Hs2].
  - apply Permutation_nil_l in Hp. subst l'. constructor.
  - apply Permutation_singleton_l in Hp. subst l'. constructor.
  - eapply sum_of_add; [exact H1 | exact H2 | | done..].
    by rewrite <- Hp.
Qed.

Lemma sum_of_nonempty (l : list float) :
  l ≠ [] → sum_of l (pairwise_sum (List.length l) l).
Proof.
  intros Hl.
  refine (proj2 (pairwise_sum_P id (λ l s _, l ≠ [] ∧ sum_of l s)
            _ _ _ (List.length l) l Hl)).
  - intros x. split; [done | constructor].
  - intros l1 l2 s1 s2 _ _ [N1 H1] [N2 H2]. split.
    + by destruct l1.
    + by apply (sum_of_add _ l1 l2).
  - intros l1 l2 s _ Hp [N H]. split.
    + intros ->. by apply Permutation_nil_r in Hp.
    + by eapply sum_of_Permutation.
Qed.

(** The pairwise sum of numbers of one sign, none of them zero, is a number
    of that sign and not zero; and negating the numbers negates it. *)
Lemma pairwise_sum_signed (s : bool) (l : list float) :
  l ≠ [] → Forall (λ x, sf_signed s (Prim2SF x)) l →
  sf_signed s (Prim2SF (pairwise_sum (List.length l) l))
  ∧ pairwise_sum (List.length l) (negated l)
    = - pairwise_sum (List.length l) l.
Proof.
  intros Hl Hall.
  refine (pairwise_sum_P PrimFloat.opp
            (λ l t t', Forall (λ x, sf_signed s (Prim2SF x)) l →
                       sf_signed s (Prim2SF t) ∧ t' = - t)
            _ _ _ (List.length l) l Hl Hall).
  - intros x Hx. apply Forall_cons in Hx as [Hx _]. by split.
  - intros l1 l2 s1 s2 s1' s2' H1 H2 [F1 F2]%Forall_app.
    destruct (H1 F1) as [G1 ->], (H2 F2) as [G2 ->].
    by apply add_signed.
  - intros l1 l2 t t' Hp H F. apply H. by rewrite Hp.
Qed.

Lemma sum_signed (s : bool) (l : list float) :
  l ≠ [] → Forall (λ x, sf_signed s (Prim2SF x)) l →
  sf_signed s (Prim2SF (sum l))
  ∧ sum l = pairwise_sum (List.length l) l
  ∧ sum_of l (sum l).
Proof.
  intros Hl Hall. destruct (pairwise_sum_signed s l Hl Hall) as [Hs _].
  assert (sum l = pairwise_sum (List.length l) l) as E
    by (by apply (add_zero_l_signed s)).
  rewrite E. split_and!; [done | done | by apply sum_of_nonempty].
Qed.

(** The sum of the negated amounts is the negated sum, for amounts of one
    sign and at least one of them.  (Of no amounts, the one sum is [0.0] and
    the other [-0.0].) *)
Lemma sum_negated (s : bool) (amounts : list float) :
  amounts ≠ [] →
  Forall (λ x, sf_signed s (Prim2SF x)) amounts →
  sum (negated amounts) = - sum amounts.
Proof.
  intros Hl Hall. destruct (pairwise_sum_signed s _ Hl Hall) as [Hs Hn].
  unfold sum, negated in *. rewrite length_fmap, Hn.
  rewrite (add_zero_l_signed s _ Hs).
  apply (add_zero_l_signed (negb s)). rewrite opp_spec.
  destruct (Prim2SF (pairwise_sum _ amounts)); simpl in *; congruence.
Qed.

(** *** Compensated sums of one and of two numbers *)

Lemma sub_zero_r (x : float) : x - 0 = x.
Proof.
  apply Prim2SF_inj. rewrite sub_spec.
  change (Prim2SF 0) with (S754_zero false).
  by destruct (Prim2SF x) as [[]|[]| |[] m e].
Qed.

(** The compensation after the first number of a group is zero. *)
Lemma first_compensation (s : bool) (x : float) :
  sf_signed s (Prim2SF x) → (if is_nan (x - x) then 0 else x - x) = 0.
Proof.
  intros Hx. rewrite is_nan_Prim2SF.
  assert (Prim2SF (x - x) = S754_nan ∨ Prim2SF (x - x) = S754_zero false)
    as [E|E].
  { rewrite sub_spec. unfold SF64sub, SFsub.
    destruct (Prim2SF x) as [[]|[]| |[] m e]; try done; auto;
      right; by rewrite Z.sub_diag. }
  - by rewrite E.
  - rewrite E. apply Prim2SF_inj. by rewrite E.
Qed.

Lemma group_sum_one (s : bool) (x : float) :
  sf_signed s (Prim2SF x) → group_sum [x] = x.
Proof.
  intros Hx. unfold group_sum, kahan_step. simpl.
  by rewrite sub_zero_r, (add_zero_l_signed s).
Qed.

Lemma group_sum_two (s : bool) (x1 x2 : float) :
  sf_signed s (Prim2SF x1) → group_sum [x1; x2] = x1 + x2.
Proof.
  intros Hx. unfold group_sum, kahan_step. simpl.
  rewrite !sub_zero_r, (add_zero_l_signed s) by done.
  by rewrite (first_compensation s), sub_zero_r.
Qed.

End Sums.

(** ** Aggregation *)

Section Aggregation.

#[local] Open Scope float_scope.

Lemma negative_signed (x : float) :
  (x <? 0) = true → sf_signed true (Prim2SF x).
Proof.
  rewrite ltb_spec. change (Prim2SF 0) with (S754_zero false).
  by destruct (Prim2SF x) as [[]|[]| |[] m e].
Qed.

Lemma positive_signed (x : float) :
  (0 <? x) = true → sf_signed false (Prim2SF x).
Proof.
  rewrite ltb_spec. change (Prim2SF 0) with (S754_zero false).
  by destruct (Prim2SF x) as [[]|[]| |[] m e].
Qed.

(** In a table whose types follow the amounts, the expense rows are the
    rows of negative amount. *)
Lemma expense_amounts_negative (df : list txn) :
  Forall (λ r, type r = type_of_amount (amount r)) df →
  Forall (λ x, (x <? 0) = true)
    (amount <$> filter (λ r, type r = expense) df).
Proof.
  intros H. apply Forall_fmap, Forall_forall. intros r Hr.
  apply list_elem_of_filter in Hr as [Ht Hr].
  rewrite Forall_forall in H. specialize (H r Hr).
  rewrite H in Ht. unfold type_of_amount in Ht. simpl.
  destruct (0 <? amount r); [done|]. by destruct (amount r <? 0).
Qed.

Lemma income_amounts_positive (df : list txn) :
  Forall (λ r, type r = type_of_amount (amount r)) df →
  Forall (λ x, (0 <? x)%float = true)
    (amount <$> filter (λ r, type r = income) df).
Proof.
  intros H. apply Forall_fmap, Forall_forall. intros r Hr.
  apply list_elem_of_filter in Hr as [Ht Hr].
  rewrite Forall_forall in H. specialize (H r Hr).
  rewrite H in Ht. unfold type_of_amount in Ht. simpl.
  destruct (0 <? amount r)%float; [done|].
  by destruct (amount r <? 0)%float.
Qed.

(** In such a table the income total is a sum of the income amounts, above
    zero, and the expense total the negation of a sum of the expense
    amounts, above zero too; a total of no amounts is zero. *)
Lemma totals_of_typed (df : list txn) :
  Forall (λ r, type r = type_of_amount (amount r)) df →
  let incomes := amount <$> filter (λ r, type r = income) df in
  let expenses := amount <$> filter (λ r, type r = expense) df in
  (incomes ≠ [] →
     sum_of incomes (sum incomes) ∧ (0 <? sum incomes) = true)
  ∧ (expenses ≠ [] →
       sum_of expenses (sum expenses) ∧ (0 <? - sum expenses) = true)
  ∧ (incomes = [] → sum incomes = 0)
  ∧ (expenses = [] → (- sum expenses =? 0) = true)
  ∧ (0 <=? - sum expenses) = true.
Proof.
  intros H incomes expenses.
  assert (Forall (λ x, sf_signed false (Prim2SF x)) incomes) as Hi.
  { eapply Forall_impl; [by apply income_amounts_positive|].
    intros x. apply positive_signed. }
  assert (Forall (λ x, sf_signed true (Prim2SF x)) expenses) as He.
  { eapply Forall_impl; [by apply expense_amounts_negative|].
    intros x. apply negative_signed. }
  assert (expenses ≠ [] →
          sum_of expenses (sum expenses) ∧ (0 <? - sum expenses) = true)
    as Hpos.
  { intros Hne. destruct (sum_signed true expenses Hne He) as (Hs & _ & Hof).
    split; [done|]. rewrite ltb_spec, opp_spec.
    change (Prim2SF 0) with (S754_zero false).
    by destruct (Prim2SF (sum expenses)) as [[]|[]| |[] m e]. }
  split_and!.
  - intros Hne. destruct (sum_signed false incomes Hne Hi) as (Hs & _ & Hof).
    split; [done|]. rewrite ltb_spec.
    change (Prim2SF 0) with (S754_zero false).
    by destruct (Prim2SF (sum incomes)) as [[]|[]| |[] m e].
  - done.
  - by intros ->.
  - by intros ->.
  - destruct (decide (expenses = [])) as [->|Hne]; [done|].
    destruct (Hpos Hne) as [_ Hlt].
    revert Hlt. rewrite ltb_spec, leb_spec. unfold SFltb, SFleb.
    by destruct (SFcompare _ _) as [[]|].
Qed.

(** [aggregate] always reaches its end, with these figures. *)
Lemma aggregate_eq (df : list txn) (tag : string) :
  let ti := sum (amount <$> filter (λ r, type r = income) df) in
  let te := - sum (amount <$> filter (λ r, type r = expense) df) in
  aggregate df tag =
  Ok {| transactions := df;
        total_income := ti;
        total_expense := te;
        savings := ti - te;
        savings_rate := if 0 <? ti then (ti - te) / ti * 100 else 0;
        expenses_by_cat :=
          sort_values
            ((λ e, (e.1, - e.2))
               <$> groupby_category_sum (filter (λ r, type r = expense) df));
        month_tag := tag |}.
Proof.
  intros ti te. unfold aggregate. fold ti te.
  destruct (0 <? ti) eqn:E; [|done].
  unfold truediv.
  by destruct (proj1 (sign_exclusive ti) E) as [_ ->].
Qed.

End Aggregation.

(** ** The pipeline *)

Lemma existsb_false_Forall {A : Type} (f : A → bool) (l : list A) :
  existsb f l = false ↔ Forall (λ x, f x = false) l.
Proof.
  induction l as [|x l IH]; simpl; [by split|].
  rewrite orb_false_iff, IH, Forall_cons. done.
Qed.

Lemma make_rows_Forall (f : string → string) (g : float → txn_type)
    (dates : list Timestamp) (descriptions : list string)
    (amounts : list float) :
  Forall
    (λ r, category r = f (description r) ∧ type r = g (amount r) ∧
          description r ∈ descriptions ∧ amount r ∈ amounts)
    (make_rows dates descriptions amounts (f <$> descriptions) (g <$> amounts)).
Proof.
  revert descriptions amounts.
  induction dates as [|d dates IH]; intros [|s descriptions] [|x amounts];
    try by constructor.
  simpl. constructor.
  - simpl. split_and!; [done | done | by left | by left].
  - eapply Forall_impl; [apply IH|].
    intros r (? & ? & ? & ?). split_and!; [done | done | by right | by right].
Qed.

(** [apply] over the description column: the categories of the texts, or
    [AttributeError] when a description is missing. *)
Lemma apply_categorize (rs : rules) (descriptions : list (option string)) :
  mapM (categorize_cell rs) descriptions
  = if bool_decide (None ∈ descriptions) then Raised "AttributeError"
    else Ok ((λ s, categorize s rs) <$> omap id descriptions).
Proof.
  induction descriptions as [|[d|] l IH]; [done| |].
  - cbn [mapM categorize_cell mbind outcome_bind]. rewrite IH.
    destruct (decide (None ∈ l)) as [Hin|Hnin].
    + rewrite !bool_decide_eq_true_2; [done | by right | done].
    + rewrite !bool_decide_eq_false_2; [done | | done].
      by intros [?|?]%elem_of_cons.
  - cbn [mapM categorize_cell mbind outcome_bind].
    rewrite bool_decide_eq_true_2; [done | by left].
Qed.

Section Pipeline.

Context {cell : Type}.
Variable to_datetime : list cell → cell → option Timestamp.
Variable astype_str : cell → option string.
Variable to_numeric : list cell → cell → float.

(** Past the check behind [pd.to_numeric] no amount is [NaN], inverted or
    not. *)
Lemma parsed_amounts_not_nan (a : args) (csv : DataFrame cell)
    (dates : list Timestamp) (descriptions : list (option string))
    (amounts : list float) :
  parsed to_datetime astype_str to_numeric a csv
    = Ok (dates, descriptions, amounts) →
  Forall (λ x, is_nan x = false) amounts.
Proof.
  unfold parsed.
  destruct (normalize_columns csv) as [df| |]; [|done..]. cbn.
  destruct (series "date" "ValueError" df) as [raw_dates| |]; [|done..]. cbn.
  destruct (existsb _ (to_datetime raw_dates <$> raw_dates)); [done|].
  destruct (series "description" "AttributeError" df)
    as [raw_desc| |]; [|done..]. cbn.
  destruct (series "amount" "TypeError" df) as [raw_am| |]; [|done..]. cbn.
  destruct (existsb is_nan (to_numeric raw_am <$> raw_am)) eqn:E; [done|].
  apply existsb_false_Forall in E. intros [= _ _ <-].
  destruct (invert a); [|done].
  unfold negated. apply Forall_fmap. eapply Forall_impl; [exact E|].
  intros x Hx. simpl. by rewrite is_nan_opp.
Qed.

(** [categorized] in terms of [parsed]: the one failure it adds is a
    missing description. *)
Lemma categorized_eq (a : args) (rs : rules) (csv : DataFrame cell) :
  categorized to_datetime astype_str to_numeric a rs csv
  = match parsed to_datetime astype_str to_numeric a csv with
    | Ok (dates, descriptions, amounts) =>
        if bool_decide (None ∈ descriptions) then Raised "AttributeError"
        else Ok (make_rows dates (omap id descriptions) amounts
                   ((λ s, categorize s rs) <$> omap id descriptions)
                   (type_of_amount <$> amounts))
    | SystemExit msg => SystemExit msg
    | Raised exc => Raised exc
    end.
Proof.
  unfold categorized.
  destruct (parsed _ _ _ a csv) as [[[dates descriptions] amounts]| |];
    [|done..].
  cbn [mbind outcome_bind]. rewrite apply_categorize.
  by destruct (bool_decide (None ∈ descriptions)).
Qed.

(** What holds of every row once the [category] and [type] columns are
    there. *)
Lemma categorized_rows (a : args) (rs : rules) (csv : DataFrame cell)
    (df : list txn) :
  categorized to_datetime astype_str to_numeric a rs csv = Ok df →
  ∃ dates descriptions amounts,
    parsed to_datetime astype_str to_numeric a csv
      = Ok (dates, descriptions, amounts) ∧
    Forall
      (λ r, category r = categorize (description r) rs ∧
            type r = type_of_amount (amount r) ∧
            Some (description r) ∈ descriptions ∧
            amount r ∈ amounts ∧
            is_nan (amount r) = false)
      df.
Proof.
  rewrite categorized_eq.
  destruct (parsed _ _ _ a csv) as [[[dates descriptions] amounts]| |] eqn:E;
    [|done..].
  destruct (bool_decide (None ∈ descriptions)); [done|].
  intros [= <-]. exists dates, descriptions, amounts. split; [done|].
  pose proof (parsed_amounts_not_nan _ _ _ _ _ E) as Hnan.
  eapply Forall_impl;
    [apply (make_rows_Forall (λ s, categorize s rs) type_of_amount)|].
  intros r (? & ? & Hd & Hin). split_and!; [done | done | | done |].
  - apply list_elem_of_omap in Hd as (d & Hd & Hs). simpl in Hs. by subst d.
  - rewrite Forall_forall in Hnan. by apply Hnan.
Qed.

(** [%Y-%m] is the text [YYYY-MM]. *)
Lemma strftime_Ym_year_month (t : Timestamp) :
  strftime_Ym t = year_month (ts_year t) (ts_month t).
Proof.
  unfold strftime_Ym, year_month, decimal_digit. cbn [zero_padded].
  rewrite !Z.div_div by lia. reflexivity.
Qed.

Lemma month_filter_subseteq (df : list txn) (month : option string) :
  month_filter df month ⊆ df.
Proof.
  destruct month as [[|c m]|]; [done| |done].
  intros r Hr. by apply list_elem_of_filter in Hr as [_ ?].
Qed.

Lemma filtered_subseteq (a : args) (df df' : list txn) :
  filtered a df = Ok df' → df' ⊆ df.
Proof.
  unfold filtered. destruct (given (month a)); [|by intros [= <-]].
  pose proof (month_filter_subseteq df (month a)) as H.
  destruct (month_filter df (month a)); [done|]. by intros [= <-].
Qed.

(** The table a finished run writes holds rows of the categorized table. *)
Lemma main_transactions (a : args) (file : option (option rules))
    (csv : DataFrame cell) (rep : report) :
  main to_datetime astype_str to_numeric a file csv = Ok rep →
  ∃ df,
    categorized to_datetime astype_str to_numeric a
      (load_yaml file default_categories) csv = Ok df ∧
    filtered a df = Ok (transactions rep).
Proof.
  unfold main.
  destruct (categorized _ _ _ a _ csv) as [df| |]; [|done..].
  cbn [mbind outcome_bind].
  destruct (filtered a df) as [df'| |] eqn:E; [|done..].
  cbn [mbind outcome_bind].
  rewrite aggregate_eq. intros [= <-]. by exists df.
Qed.

(** The report of a finished run is the aggregation of the table it
    writes. *)
Lemma main_report (a : args) (file : option (option rules))
    (csv : DataFrame cell) (rep : report) :
  main to_datetime astype_str to_numeric a file csv = Ok rep →
  aggregate (transactions rep) (month_tag rep) = Ok rep.
Proof.
  unfold main.
  destruct (categorized _ _ _ a _ csv) as [df| |]; [|done..].
  cbn [mbind outcome_bind].
  destruct (filtered a df) as [df'| |]; [|done..].
  cbn [mbind outcome_bind].
  rewrite aggregate_eq. intros [= <-]. apply aggregate_eq.
Qed.

(** In that table the types follow the amounts. *)
Lemma main_types (a : args) (file : option (option rules))
    (csv : DataFrame cell) (rep : report) :
  main to_datetime astype_str to_numeric a file csv = Ok rep →
  Forall (λ r, type r = type_of_amount (amount r)) (transactions rep).
Proof.
  intros (df & Hdf & Hf)%main_transactions.
  apply categorized_rows in Hdf as (? & ? & ? & _ & Hall).
  rewrite Forall_forall in Hall. apply Forall_forall. intros r Hr.
  destruct (Hall r) as (_ & Ht & _); [|done].
  by eapply filtered_subseteq.
Qed.

End Pipeline.

(** ** Column normalization *)

Lemma foldl_insert_lookup (g : string → string) (cols : list string)
    (m : gmap string string) (c : string) :
  foldl (λ mapping '(c_orig, c_low), <[c_orig := canonical c_low]> mapping)
        m (zip cols (g <$> cols)) !! c
  = if bool_decide (c ∈ cols) then Some (canonical (g c)) else m !! c.
Proof.
  revert m. induction cols as [|x cols IH]; intros m; [done|].
  cbn [fmap list_fmap zip zip_with foldl]. rewrite IH.
  destruct (decide (c ∈ cols)) as [Hin|Hnin].
  - rewrite !bool_decide_eq_true_2; [done | by right | done].
  - rewrite (bool_decide_eq_false_2 (c ∈ cols)) by done.
    destruct (decide (c = x)) as [->|Hne].
    + rewrite lookup_insert_eq, bool_decide_eq_true_2; [done | by left].
    + rewrite lookup_insert_ne by done.
      rewrite bool_decide_eq_false_2; [done|].
      by intros [?|?]%elem_of_cons.
Qed.

(** The dictionary sends every column name to its canonical name. *)
Lemma build_mapping_lookup (cols : list string) (c : string) :
  c ∈ cols →
  build_mapping cols !! c = Some (canonical (PyStr.strip (PyStr.lower c))).
Proof.
  intros Hc. unfold build_mapping, lcols.
  rewrite (foldl_insert_lookup (λ c, PyStr.strip (PyStr.lower c))).
  by rewrite bool_decide_eq_true_2.
Qed.

(** So the renamed table has the canonical names of the old ones. *)
Lemma renamed_eq {cell : Type} (df : DataFrame cell) :
  renamed df
  = (λ col, (canonical (PyStr.strip (PyStr.lower col.1)), col.2)) <$> df.
Proof.
  unfold renamed, rename. apply list_fmap_ext. intros i [c values] Hi. simpl.
  rewrite build_mapping_lookup; [done|].
  unfold columns. apply list_elem_of_fmap. exists (c, values).
  split; [done|]. by eapply list_elem_of_lookup_2.
Qed.

Section Labels.

Context {cell : Type}.
Implicit Types (df : DataFrame cell) (n k : string).

Lemma columns_renamed df :
  columns (renamed df)
  = (λ c, canonical (PyStr.strip (PyStr.lower c))) <$> columns df.
Proof.
  rewrite renamed_eq. unfold columns.
  rewrite <- !list_fmap_compose. by apply list_fmap_ext.
Qed.

Lemma elem_of_labelled df n (col : string * list cell) :
  col ∈ labelled n df ↔ col.1 = n ∧ col ∈ df.
Proof. unfold labelled. by rewrite list_elem_of_filter. Qed.

Lemma labelled_nil df n : labelled n df = [] ↔ n ∉ columns df.
Proof.
  unfold columns. split.
  - intros H [[c v] [Hc Hin]]%list_elem_of_fmap. simpl in Hc. subst c.
    assert ((n, v) ∈ labelled n df) as Hl by (by apply elem_of_labelled).
    rewrite H in Hl. by apply elem_of_nil in Hl.
  - intros H. destruct (labelled n df) as [|[c v] l] eqn:E; [done|].
    exfalso. apply H.
    assert ((c, v) ∈ labelled n df) as Hl by (rewrite E; by left).
    apply elem_of_labelled in Hl as [Hc Hin]. simpl in Hc. subst c.
    apply list_elem_of_fmap. by exists (n, v).
Qed.

Lemma columns_labelled df n :
  columns (labelled n df) = filter (λ c, c = n) (columns df).
Proof.
  unfold columns, labelled. induction df as [|[c v] df IH]; [done|].
  rewrite fmap_cons. simpl.
  destruct (decide (c = n)) as [->|Hc].
  - rewrite !filter_cons_True by done. by rewrite fmap_cons, IH.
  - by rewrite !filter_cons_False by done.
Qed.

Lemma labelled_app df1 df2 n :
  labelled n (df1 ++ df2) = labelled n df1 ++ labelled n df2.
Proof. apply filter_app. Qed.

Lemma labelled_labelled df n k :
  labelled n (labelled k df) = if decide (n = k) then labelled k df else [].
Proof.
  unfold labelled. induction df as [|[c v] df IH]; [by destruct (decide _)|].
  destruct (decide (c = k)) as [->|Hck].
  - rewrite (filter_cons_True (λ col, col.1 = k)) by done.
    destruct (decide (n = k)) as [->|Hnk].
    + rewrite filter_cons_True by done. by rewrite IH.
    + rewrite filter_cons_False by (simpl; congruence). by rewrite IH.
  - rewrite (filter_cons_False (λ col, col.1 = k)) by done. apply IH.
Qed.

(** Selecting the three canonical names does not change which columns a
    canonical name labels. *)
Lemma labelled_select_need df n :
  n ∈ need → labelled n (select need df) = labelled n df.
Proof.
  intros Hn. unfold select, need. cbn [mbind list_bind].
  rewrite !labelled_app, !labelled_labelled. unfold need in Hn.
  for_each_of Hn (by rewrite ?app_nil_r).
Qed.

Lemma need_check df :
  forallb (λ n, bool_decide (n ∈ columns df)) need = true
  ↔ ∀ n, n ∈ need → n ∈ columns df.
Proof.
  rewrite forallb_forall. split.
  - intros H n Hn. eapply bool_decide_eq_true, H. by apply list_elem_of_In.
  - intros H n Hn. apply bool_decide_eq_true, H. by apply list_elem_of_In.
Qed.

Lemma normalize_columns_ok df :
  (∀ n, n ∈ need → n ∈ columns (renamed df)) →
  normalize_columns df = Ok (select need (renamed df)).
Proof.
  intros H. unfold normalize_columns.
  by rewrite (proj2 (need_check (renamed df)) H).
Qed.


(** A label present once names one column. *)
Lemma labelled_singleton df n :
  n ∈ columns df → (List.length (labelled n df) ≤ 1)%nat →
  ∃ values, labelled n df = [(n, values)].
Proof.
  intros Hin Hlen. destruct (labelled n df) as [|[c v] [|? ?]] eqn:E.
  - apply labelled_nil in E. done.
  - assert ((c, v) ∈ labelled n df) as Hl by (rewrite E; by left).
    apply elem_of_labelled in Hl as [Hc _]. simpl in Hc. subst c. by exists v.
  - simpl in Hlen. lia.
Qed.

End Labels.

(** ** Exit status *)


Section ExitStatus.

Context {cell : Type}.
Variable to_datetime : list cell → cell → option Timestamp.
Variable astype_str : cell → option string.
Variable to_numeric : list cell → cell → float.

#[local] Abbreviation parse := (parsed to_datetime astype_str to_numeric).
#[local] Abbreviation label_rows :=
  (categorized to_datetime astype_str to_numeric).
#[local] Abbreviation run := (main to_datetime astype_str to_numeric).





End ExitStatus.

(** * The claims *)

(** C1. On every table [aggregate] reaches its end, with the table, and
    with savings that are the income total minus the expense total.  When
    the types of the table follow its amounts, as after categorization:
    the income total is the sum of the amounts of the rows typed income,
    as [Series.sum()] takes it, and that is a sum of those amounts in the
    plain sense (all of them added up, each once); the expense total is the
    negation of the sum of the amounts of the rows typed expense, likewise;
    both are above zero, and a total over no row is zero.  All this holds of
    the table a finished run writes.  On the two rows KROGER -50.00 and
    PAYROLL 2000.00 of January 2024, with the default rules and the month
    2024-01, the run reports 2000, 50, 1950 and 97.5 and the one expense
    category groceries with 50. *)
Theorem aggregator_totals :
  (∀ (df : list txn) (tag : string),
     let incomes := amount <$> filter (λ r, type r = income) df in
     let expenses := amount <$> filter (λ r, type r = expense) df in
     ∃ rep, aggregate df tag = Ok rep ∧
       transactions rep = df ∧
       savings rep = (total_income rep - total_expense rep)%float ∧
       (Forall (λ r, type r = type_of_amount (amount r)) df →
        (incomes ≠ [] →
           total_income rep = sum incomes ∧
           sum_of incomes (total_income rep) ∧
           (0 <? total_income rep)%float = true) ∧
        (expenses ≠ [] →
           total_expense rep = (- sum expenses)%float ∧
           (∃ s, sum_of expenses s ∧ total_expense rep = (- s)%float) ∧
           (0 <? total_expense rep)%float = true) ∧
        (incomes = [] → total_income rep = 0%float) ∧
        (expenses = [] → (total_expense rep =? 0)%float = true) ∧
        (0 <=? total_expense rep)%float = true))
  ∧ (∀ (cell : Type) (to_datetime : list cell → cell → option Timestamp)
       (astype_str : cell → option string)
       (to_numeric : list cell → cell → float)
       (a : args) (file : option (option rules)) (csv : DataFrame cell)
       (rep : report),
       main to_datetime astype_str to_numeric a file csv = Ok rep →
       let incomes :=
         amount <$> filter (λ r, type r = income) (transactions rep) in
       let expenses :=
         amount <$> filter (λ r, type r = expense) (transactions rep) in
       savings rep = (total_income rep - total_expense rep)%float ∧
       (incomes ≠ [] →
          total_income rep = sum incomes ∧
          sum_of incomes (total_income rep) ∧
          (0 <? total_income rep)%float = true) ∧
       (expenses ≠ [] →
          total_expense rep = (- sum expenses)%float ∧
          (∃ s, sum_of expenses s ∧ total_expense rep = (- s)%float) ∧
          (0 <? total_expense rep)%float = true) ∧
       (incomes = [] → total_income rep = 0%float) ∧
       (expenses = [] → (total_expense rep =? 0)%float = true) ∧
       (0 <=? total_expense rep)%float = true)
  ∧ Text.run {| month := Some "2024-01"; invert := false |} None
      [ ("date", ["2024-01-05"; "2024-01-10"]);
        ("description", ["KROGER"; "PAYROLL"]);
        ("amount", ["-50.00"; "2000.00"]) ]
    = Ok {| transactions :=
              [ {| date := {| ts_year := 2024; ts_month := 1; ts_day := 5 |};
                   description := "KROGER";
                   amount := (-50)%float;
                   category := "groceries";
                   type := expense |};
                {| date := {| ts_year := 2024; ts_month := 1; ts_day := 10 |};
                   description := "PAYROLL";
                   amount := 2000%float;
                   category := "income";
                   type := income |} ];
            total_income := 2000%float;
            total_expense := 50%float;
            savings := 1950%float;
            savings_rate := 97.5%float;
            expenses_by_cat := [("groceries", 50%float)];
            month_tag := "2024-01" |}.
Proof.
  split_and!; [| |by vm_compute].
  - intros df tag incomes expenses. eexists. split; [apply aggregate_eq|].
    cbn [transactions total_income total_expense savings].
    split_and!; [done..|].
    intros H. destruct (totals_of_typed df H) as (Hi & He & Hi0 & He0 & Hle).
    fold incomes expenses in Hi, He, Hi0, He0, Hle.
    split_and!; [| |done..].
    + intros Hne. destruct (Hi Hne). by split_and!.
    + intros Hne. destruct (He Hne).
      split_and!; [done | by exists (sum expenses) | done].
  - intros cell td ast tn a file csv rep Hrun incomes expenses.
    pose proof (main_types _ _ _ _ _ _ _ Hrun) as Htypes.
    apply main_report in Hrun. rewrite aggregate_eq in Hrun.
    injection Hrun as Hrun.
    destruct (totals_of_typed _ Htypes) as (Hi & He & Hi0 & He0 & Hle).
    fold incomes expenses in Hi, He, Hi0, He0, Hle.
    pose proof (f_equal total_income Hrun) as Eti.
    pose proof (f_equal total_expense Hrun) as Ete.
    pose proof (f_equal savings Hrun) as Esv.
    cbn [total_income total_expense savings] in Eti, Ete, Esv.
    fold incomes in Eti, Esv. fold expenses in Ete, Esv.
    rewrite <- Eti, <- Ete, <- Esv.
    split_and!; [done| | |done..].
    + intros Hne. destruct (Hi Hne). by split_and!.
    + intros Hne. destruct (He Hne).
      split_and!; [done | by exists (sum expenses) | done].
Qed.

(** Ten credits of 0.10 and three debits of 0.10, 0.20 and 0.30: the income
    total is 1, the expense total 0.6000000000000001. *)
Lemma aggregator_totals_witness :
  ∃ rep,
    Text.run {| month := None; invert := false |} None
      [ ("date", replicate 13 "2024-01-05");
        ("description", replicate 10 "PAYROLL" ++ replicate 3 "KROGER");
        ("amount", replicate 10 "0.10" ++ ["-0.10"; "-0.20"; "-0.30"]) ]
      = Ok rep ∧
    total_income rep = 1%float ∧
    total_expense rep = 0x1.3333333333334p-1%float ∧
    sum_of (replicate 10 0x1.999999999999ap-4%float) (total_income rep) ∧
    (∃ s, sum_of [-0x1.999999999999ap-4; -0x1.999999999999ap-3;
                  -0x1.3333333333333p-2]%float s
          ∧ total_expense rep = (- s)%float) ∧
    (0 <? total_expense rep)%float = true.
Proof.
  assert (∃ rep,
            Text.run {| month := None; invert := false |} None
              [ ("date", replicate 13 "2024-01-05");
                ("description",
                 replicate 10 "PAYROLL" ++ replicate 3 "KROGER");
                ("amount",
                 replicate 10 "0.10" ++ ["-0.10"; "-0.20"; "-0.30"]) ]
              = Ok rep) as [rep Hrep] by (vm_compute; eauto).
  exists rep. split; [exact Hrep|].
  unfold Text.run in Hrep.
  destruct (proj1 (proj2 aggregator_totals) _ _ _ _ _ _ _ _ Hrep)
    as (_ & Hi & He & _).
  vm_compute in Hrep. injection Hrep as <-.
  destruct Hi as (_ & Hi & _); [discriminate|].
  destruct He as (_ & He & Hlt); [discriminate|].
  split_and!; [reflexivity | reflexivity | exact Hi | exact He | exact Hlt].
Defined.

(** C2. [categorize] lowers the description and returns the label of the
    first keyword, in the order of the rule set and of each keyword list,
    that occurs in the lowered description: the rules split around that
    category and its keywords around that keyword, with no keyword before it
    occurring.  When no keyword of any category occurs, the answer is
    ["uncategorized"].  Under the rules [{"groceries": ["kroger"]}] the
    description ["KROGER #123"] is labelled ["groceries"]. *)
Theorem categorize_first_keyword :
  (∀ (desc : string) (rs : rules),
     let d := PyStr.lower desc in
     (∃ pre cat keywords post kpre kw kpost,
        rs = pre ++ (cat, keywords) :: post ∧
        keywords = kpre ++ kw :: kpost ∧
        PyStr.substring_of kw d ∧
        (∀ c ks k, (c, ks) ∈ pre → k ∈ ks → ¬ PyStr.substring_of k d) ∧
        (∀ k, k ∈ kpre → ¬ PyStr.substring_of k d) ∧
        categorize desc rs = cat)
     ∨ ((∀ c ks k, (c, ks) ∈ rs → k ∈ ks → ¬ PyStr.substring_of k d) ∧
        categorize desc rs = "uncategorized"))
  ∧ categorize "KROGER #123" [("groceries", ["kroger"])] = "groceries".
Proof.
  split; [|done].
  intros desc rs d. unfold categorize. fold d.
  destruct (first_match d rs) as [cat|] eqn:E.
  - left. apply first_match_some in E as (pre & kws & post & -> & Hk & Hpre).
    apply scan_keywords_true in Hk as (kpre & kw & kpost & -> & Hkw & Hkpre).
    exists pre, cat, (kpre ++ kw :: kpost), post, kpre, kw, kpost.
    split_and!; [done | done | by apply contains_spec | | | done].
    + intros c ks k Hc Hk. rewrite <- contains_spec.
      pose proof (Hpre c ks Hc) as H.
      rewrite scan_keywords_false in H. by rewrite (H k Hk).
    + intros k Hk. rewrite <- contains_spec. by rewrite (Hkpre k Hk).
  - right. split; [|done].
    intros c ks k Hc Hk. rewrite <- contains_spec.
    pose proof (proj1 (first_match_none d rs) E c ks Hc) as H.
    rewrite scan_keywords_false in H. by rewrite (H k Hk).
Qed.

(** C3, where the code departs from it.  A table with a [Debit] and a
    [Credit] column has the three canonical names among the canonical names
    of its columns (both are aliases of [amount]) and passes the check of
    [normalize_columns]; the selection then returns four columns, two of
    them labelled [amount]: not the three the claim promises.  The claim's
    own example, [Posted Date], [Details], [Debit], does give the three. *)
Theorem normalize_columns_keeps_both_amounts :
  (∀ n, n ∈ need →
     n ∈ (λ c, canonical (PyStr.strip (PyStr.lower c)))
           <$> ["Date"; "Description"; "Debit"; "Credit"])
  ∧ normalize_columns
      [ ("Date", ["2024-01-05"]); ("Description", ["KROGER"]);
        ("Debit", ["50.00"]); ("Credit", ["0.00"]) ]
    = Ok [ ("date", ["2024-01-05"]); ("description", ["KROGER"]);
           ("amount", ["50.00"]); ("amount", ["0.00"]) ]
  ∧ normalize_columns
      [ ("Posted Date", ["2024-01-05"]); ("Details", ["KROGER"]);
        ("Debit", ["50.00"]) ]
    = Ok [ ("date", ["2024-01-05"]); ("description", ["KROGER"]);
           ("amount", ["50.00"]) ].
Proof.
  split_and!; [|by vm_compute..].
  intros n Hn. vm_compute in Hn. vm_compute.
  for_each_of Hn set_solver.
Qed.

(** C4, where the code departs from it.  On the same table none of the four
    listed failures holds: every canonical column is present, every date and
    every amount can be parsed and no month is asked for.  Yet the run ends
    with exit status 1: [df["amount"]] is a frame of two columns and
    [pd.to_numeric] raises [TypeError]. *)
Theorem run_raises_on_two_amount_columns :
  let a := {| month := None; invert := false |} in
  let csv := [ ("Date", ["2024-01-05"]); ("Description", ["KROGER"]);
               ("Debit", ["50.00"]); ("Credit", ["0.00"]) ] in
  Text.run a None csv = Raised "TypeError"
  ∧ exit_status (Text.run a None csv) = 1%Z
  ∧ ¬ missing_columns csv
  ∧ ¬ unparseable_date Text.to_datetime csv
  ∧ ¬ unparseable_amount Text.to_numeric csv
  ∧ ¬ empty_selection Text.to_datetime Text.astype_str Text.to_numeric a
        (load_yaml None default_categories) csv.
Proof.
  intros a csv.
  assert (renamed csv
          = [ ("date", ["2024-01-05"]); ("description", ["KROGER"]);
              ("amount", ["50.00"]); ("amount", ["0.00"]) ]) as Hren
    by (by vm_compute).
  split_and!; [by vm_compute | by vm_compute | | | |].
  - intros Hmiss. apply Hmiss. rewrite Hren.
    intros n Hn. vm_compute in Hn. vm_compute.
    for_each_of Hn set_solver.
  - intros (values & c & Hv & Hc & Hnone). rewrite Hren in Hv.
    repeat (apply elem_of_cons in Hv as [Hv|Hv]; [simplify_eq|]).
    + apply list_elem_of_singleton in Hc as ->. by vm_compute in Hnone.
    + by apply elem_of_nil in Hv.
  - intros (values & c & Hv & Hc & Hnan). rewrite Hren in Hv.
    repeat (apply elem_of_cons in Hv as [Hv|Hv]; [simplify_eq|]).
    + apply list_elem_of_singleton in Hc as ->. by vm_compute in Hnan.
    + apply list_elem_of_singleton in Hc as ->. by vm_compute in Hnan.
    + by apply elem_of_nil in Hv.
  - by intros [Hgiven _].
Qed.

(** C5. Without a month the filter returns the table as it is (the empty
    string counts as no month).  With a month [m] it keeps, in their order,
    exactly the rows whose date written as year-month, [YYYY-MM], is the
    string [m]; and a run whose filter keeps no row stops with an error.  Of
    three rows of January 2024, February 2024 and January 2023, the month
    2024-01 keeps the first. *)
Theorem month_filter_keeps_the_month :
  (∀ df : list txn, month_filter df None = df ∧ month_filter df (Some "") = df)
  ∧ (∀ (df : list txn) (m : string), m ≠ "" →
       month_filter df (Some m)
       = filter (λ r, year_month (ts_year (date r)) (ts_month (date r)) = m)
           df ∧
       month_filter df (Some m) `sublist_of` df ∧
       ∀ r, r ∈ month_filter df (Some m) ↔
            r ∈ df ∧ year_month (ts_year (date r)) (ts_month (date r)) = m)
  ∧ (∀ (cell : Type) (to_datetime : list cell → cell → option Timestamp)
       (astype_str : cell → option string)
       (to_numeric : list cell → cell → float)
       (a : args) (file : option (option rules)) (csv : DataFrame cell)
       (df : list txn) (m : string),
       month a = Some m → m ≠ "" →
       categorized to_datetime astype_str to_numeric a
         (load_yaml file default_categories) csv = Ok df →
       month_filter df (Some m) = [] →
       main to_datetime astype_str to_numeric a file csv
         = SystemExit (no_transactions_msg m) ∧
       exit_status (main to_datetime astype_str to_numeric a file csv) = 1%Z)
  ∧ month_filter
      [ {| date := {| ts_year := 2024; ts_month := 1; ts_day := 5 |};
           description := "KROGER"; amount := (-50)%float;
           category := "groceries"; type := expense |};
        {| date := {| ts_year := 2024; ts_month := 2; ts_day := 1 |};
           description := "PAYROLL"; amount := 2000%float;
           category := "income"; type := income |};
        {| date := {| ts_year := 2023; ts_month := 1; ts_day := 9 |};
           description := "UBER"; amount := (-12.5)%float;
           category := "transport"; type := expense |} ]
      (Some "2024-01")
    = [ {| date := {| ts_year := 2024; ts_month := 1; ts_day := 5 |};
           description := "KROGER"; amount := (-50)%float;
           category := "groceries"; type := expense |} ].
Proof.
  split_and!.
  - done.
  - intros df m Hm.
    assert (month_filter df (Some m)
            = filter (λ r, year_month (ts_year (date r)) (ts_month (date r))
                           = m) df) as ->.
    { destruct m as [|c m]; [done|]. unfold month_filter.
      apply list_filter_iff. intros r. by rewrite strftime_Ym_year_month. }
    split_and!; [done | apply sublist_filter |].
    intros r. by rewrite list_elem_of_filter, (comm and).
  - intros cell td ast tn a file csv df m Hmonth Hm Hcat Hempty.
    unfold main. rewrite Hcat. cbn [mbind outcome_bind].
    unfold filtered. rewrite Hmonth.
    destruct m as [|c m]; [done|]. cbn [given]. by rewrite Hempty.
  - reflexivity.
Qed.

Lemma month_filter_keeps_the_month_witness :
  (∀ r,
     r ∈ month_filter
           [ {| date := {| ts_year := 2024; ts_month := 1; ts_day := 5 |};
                description := "KROGER"; amount := (-50)%float;
                category := "groceries"; type := expense |};
             {| date := {| ts_year := 2024; ts_month := 2; ts_day := 1 |};
                description := "PAYROLL"; amount := 2000%float;
                category := "income"; type := income |} ]
           (Some "2024-01")
     ↔ r ∈ [ {| date := {| ts_year := 2024; ts_month := 1; ts_day := 5 |};
                description := "KROGER"; amount := (-50)%float;
                category := "groceries"; type := expense |};
             {| date := {| ts_year := 2024; ts_month := 2; ts_day := 1 |};
                description := "PAYROLL"; amount := 2000%float;
                category := "income"; type := income |} ]
       ∧ year_month (ts_year (date r)) (ts_month (date r)) = "2024-01")
  ∧ Text.run {| month := Some "2024-02"; invert := false |} None
      [ ("date", ["2024-01-05"; "2024-01-10"]);
        ("description", ["KROGER"; "PAYROLL"]);
        ("amount", ["-50.00"; "2000.00"]) ]
    = SystemExit "No transactions found for 2024-02."
  ∧ exit_status
      (Text.run {| month := Some "2024-02"; invert := false |} None
         [ ("date", ["2024-01-05"; "2024-01-10"]);
           ("description", ["KROGER"; "PAYROLL"]);
           ("amount", ["-50.00"; "2000.00"]) ]) = 1%Z.
Proof.
  split.
  - apply (proj1 (proj2 month_filter_keeps_the_month)). discriminate.
  - eapply (proj1 (proj2 (proj2 month_filter_keeps_the_month)) string
              Text.to_datetime Text.astype_str Text.to_numeric
              {| month := Some "2024-02"; invert := false |} None _ _
              "2024-02").
    + reflexivity.
    + discriminate.
    + vm_compute. reflexivity.
    + vm_compute. reflexivity.
Defined.

(** C6. The savings rate is savings / income * 100 when the income total is
    above zero, and 0 otherwise, in particular when the income total is
    zero, whatever the expenses.  A division by zero would be a fault
    ([truediv]); [aggregate] never ends in one, and where it divides the
    divisor is not zero. *)
Theorem savings_rate_guarded :
  (∀ a b : float, (b =? 0)%float = true →
     truediv a b = Raised "ZeroDivisionError")
  ∧ (∀ (df : list txn) (tag : string),
       ∃ rep, aggregate df tag = Ok rep ∧
         ((0 <? total_income rep)%float = true →
            savings_rate rep = (savings rep / total_income rep * 100)%float ∧
            (total_income rep =? 0)%float = false) ∧
         ((0 <? total_income rep)%float = false →
            savings_rate rep = 0%float) ∧
         ((total_income rep =? 0)%float = true →
            savings_rate rep = 0%float)).
Proof.
  split.
  - intros a b Hb. unfold truediv. by rewrite Hb.
  - intros df tag. eexists. split; [apply aggregate_eq|].
    cbn [total_income savings savings_rate].
    set (ti := sum (amount <$> filter (λ r, type r = income) df)).
    split_and!.
    + intros E. rewrite E. split; [done|].
      by destruct (proj1 (sign_exclusive ti) E).
    + by intros ->.
    + intros E.
      by destruct (proj2 (proj2 (sign_exclusive ti)) E) as [-> _].
Qed.

Lemma savings_rate_guarded_witness :
  ∃ rep,
    aggregate
      [ {| date := {| ts_year := 2024; ts_month := 1; ts_day := 5 |};
           description := "KROGER"; amount := (-50)%float;
           category := "groceries"; type := expense |} ] "ALL" = Ok rep ∧
    total_income rep = 0%float ∧
    total_expense rep = 50%float ∧
    savings_rate rep = 0%float.
Proof.
  destruct (proj2 savings_rate_guarded
              [ {| date := {| ts_year := 2024; ts_month := 1; ts_day := 5 |};
                   description := "KROGER"; amount := (-50)%float;
                   category := "groceries"; type := expense |} ] "ALL")
    as (rep & Hrep & _ & _ & Hzero).
  assert (total_income rep = 0%float ∧ total_expense rep = 50%float)
    as [Hi He].
  { vm_compute in Hrep. injection Hrep as <-. by split. }
  exists rep. split_and!; [exact Hrep | exact Hi | exact He |].
  apply Hzero. rewrite Hi. reflexivity.
Defined.

(** C7. [--invert] replaces every parsed amount by its opposite and changes
    nothing else of the parsed table: the run with the flag fails where the
    run without it fails, and otherwise parses the same dates and
    descriptions and, row by row, the opposite amounts.  The opposite of an
    amount above zero is below zero and conversely.  Inverting twice gives
    the amounts back.  So -50, 2000 and 0 become 50, -2000 and -0. *)
Theorem invert_negates_and_is_involutive :
  (∀ (cell : Type) (to_datetime : list cell → cell → option Timestamp)
     (astype_str : cell → option string)
     (to_numeric : list cell → cell → float)
     (m : option string) (csv : DataFrame cell),
     match parsed to_datetime astype_str to_numeric
             {| month := m; invert := false |} csv with
     | Ok (dates, descriptions, amounts) =>
         parsed to_datetime astype_str to_numeric
           {| month := m; invert := true |} csv
         = Ok (dates, descriptions, (λ x, (- x)%float) <$> amounts)
     | SystemExit msg =>
         parsed to_datetime astype_str to_numeric
           {| month := m; invert := true |} csv
         = SystemExit msg
     | Raised exc =>
         parsed to_datetime astype_str to_numeric
           {| month := m; invert := true |} csv
         = Raised exc
     end)
  ∧ (∀ (amounts : list float) (i : nat),
       negated amounts !! i = (λ x, (- x)%float) <$> amounts !! i)
  ∧ (∀ x : float,
       (- x <? 0)%float = (0 <? x)%float ∧ (0 <? - x)%float = (x <? 0)%float)
  ∧ (∀ amounts : list float, negated (negated amounts) = amounts)
  ∧ negated [-50; 2000; 0]%float = [50; -2000; -0]%float.
Proof.
  split_and!.
  - intros cell td ast tn m csv. unfold parsed. cbn [invert].
    destruct (normalize_columns csv) as [df| |]; [|done..]. cbn.
    destruct (series "date" "ValueError" df) as [raw_dates| |]; [|done..]. cbn.
    destruct (existsb _ (td raw_dates <$> raw_dates)); [done|].
    destruct (series "description" "AttributeError" df)
      as [raw_desc| |]; [|done..]. cbn.
    destruct (series "amount" "TypeError" df) as [raw_am| |]; [|done..]. cbn.
    by destruct (existsb is_nan (tn raw_am <$> raw_am)).
  - intros amounts i. unfold negated. apply list_lookup_fmap.
  - intros x. rewrite !ltb_spec, opp_spec.
    change (Prim2SF 0) with (S754_zero false).
    by destruct (Prim2SF x) as [[]|[]| |[] m e].
  - intros amounts. unfold negated. rewrite <- list_fmap_compose.
    rewrite <- (list_fmap_id amounts) at 2.
    apply list_fmap_ext. intros _ x _. apply opp_involutive.
  - reflexivity.
Qed.

(** C8. After categorization every row has its category, which is the one
    [categorize] gives its description, and its type, which is the sign of
    its amount as the table has it after the optional inversion: income
    exactly when the amount is above zero, expense exactly when it is below,
    neutral exactly when it is zero.  (A row is a record with one [category]
    and one [type] field.) *)
Theorem categorized_types_follow_sign {cell : Type}
    (to_datetime : list cell → cell → option Timestamp)
    (astype_str : cell → option string) (to_numeric : list cell → cell → float)
    (a : args) (rs : rules) (csv : DataFrame cell) (df : list txn) :
  categorized to_datetime astype_str to_numeric a rs csv = Ok df →
  ∃ dates descriptions amounts,
    parsed to_datetime astype_str to_numeric a csv
      = Ok (dates, descriptions, amounts) ∧
    Forall
      (λ r, category r = categorize (description r) rs ∧
            type r = type_of_amount (amount r) ∧
            amount r ∈ amounts ∧
            (type r = income ↔ (0 <? amount r)%float = true) ∧
            (type r = expense ↔ (amount r <? 0)%float = true) ∧
            (type r = neutral ↔ (amount r =? 0)%float = true))
      df.
Proof.
  intros H.
  apply categorized_rows in H as (dates & descriptions & amounts & Hp & Hr).
  exists dates, descriptions, amounts. split; [done|].
  eapply Forall_impl; [exact Hr|].
  intros r (Hc & Ht & _ & Ha & Hn). split_and!; [done..| | |];
    rewrite Ht; unfold type_of_amount;
    destruct (sign_cases _ Hn) as [(H1 & H2 & H3)|[(H1 & H2 & H3)|(H1 & H2 & H3)]];
    rewrite ?H1, ?H2, ?H3; done.
Qed.

Lemma categorized_types_follow_sign_witness :
  ∃ dates descriptions amounts,
    parsed Text.to_datetime Text.astype_str Text.to_numeric
      {| month := None; invert := true |}
      [ ("Date", ["2024-01-05"; "2024-01-10"; "2024-01-11"]);
        ("Memo", ["KROGER"; "PAYROLL"; "TRANSFER"]);
        ("Debit", ["50.00"; "-2000.00"; "0.00"]) ]
      = Ok (dates, descriptions, amounts) ∧
    Forall
      (λ r, category r = categorize (description r) default_categories ∧
            type r = type_of_amount (amount r) ∧
            amount r ∈ amounts ∧
            (type r = income ↔ (0 <? amount r)%float = true) ∧
            (type r = expense ↔ (amount r <? 0)%float = true) ∧
            (type r = neutral ↔ (amount r =? 0)%float = true))
      [ {| date := {| ts_year := 2024; ts_month := 1; ts_day := 5 |};
           description := "KROGER"; amount := (-50)%float;
           category := "groceries"; type := expense |};
        {| date := {| ts_year := 2024; ts_month := 1; ts_day := 10 |};
           description := "PAYROLL"; amount := 2000%float;
           category := "income"; type := income |};
        {| date := {| ts_year := 2024; ts_month := 1; ts_day := 11 |};
           description := "TRANSFER"; amount := (-0)%float;
           category := "uncategorized"; type := neutral |} ].
Proof.
  apply (categorized_types_follow_sign Text.to_datetime Text.astype_str
           Text.to_numeric {| month := None; invert := true |}
           default_categories).
  vm_compute. reflexivity.
Defined.

(** C10. The description is lowered, the keywords are not: a keyword with an
    upper-case ASCII letter is found in no lowered description, and a
    category all of whose keywords have one is never the category the scan
    stops at. *)
Theorem uppercase_keyword_never_matches :
  (∀ (desc kw : string),
     PyStr.has_upper kw = true → PyStr.contains kw (PyStr.lower desc) = false)
  ∧ (∀ (desc : string) (rs : rules) (cat : string),
       (∀ ks k, (cat, ks) ∈ rs → k ∈ ks → PyStr.has_upper k = true) →
       first_match (PyStr.lower desc) rs ≠ Some cat).
Proof.
  split; [intros; by apply contains_lower_no_upper|].
  intros desc rs cat Hup
    (pre & kws & post & -> & Hk & _)%first_match_some.
  apply scan_keywords_true in Hk as (kpre & kw & kpost & -> & Hkw & _).
  rewrite contains_lower_no_upper in Hkw; [done|].
  apply (Hup (kpre ++ kw :: kpost)).
  - apply elem_of_app. right. by left.
  - apply elem_of_app. right. by left.
Qed.

Lemma uppercase_keyword_never_matches_witness :
  PyStr.contains "Kroger" (PyStr.lower "KROGER Kroger kroger") = false
  ∧ first_match (PyStr.lower "KROGER #123")
      [("Groceries", ["Kroger"; "WALMART"]); ("dining", ["pizza"])]
    ≠ Some "Groceries".
Proof.
  split.
  - apply (proj1 uppercase_keyword_never_matches). reflexivity.
  - apply (proj2 uppercase_keyword_never_matches).
    intros ks k Hc Hk.
    apply elem_of_cons in Hc as [[= ->]|Hc].
    + apply elem_of_cons in Hk as [->|Hk]; [reflexivity|].
      apply elem_of_cons in Hk as [->|Hk]; [reflexivity|].
      by apply elem_of_nil in Hk.
    + apply elem_of_cons in Hc as [[=]|Hc]. by apply elem_of_nil in Hc.
Defined.

(** * Tables without a repeated canonical name *)

(** For the tables on which C3 holds: when the canonical names of the
    columns include [date], [description] and [amount], normalization ends
    without error; and when none of the three is the canonical name of two
    columns, the result has exactly the columns [date], [description],
    [amount], in that order. *)
Theorem normalize_columns_exactly_three {cell : Type} (df : DataFrame cell) :
  let names := (λ c, canonical (PyStr.strip (PyStr.lower c))) <$> columns df in
  (∀ n, n ∈ need → n ∈ names) →
  ∃ out, normalize_columns df = Ok out ∧
    ((∀ n, n ∈ need → (List.length (filter (λ c, c = n) names) ≤ 1)%nat) →
     columns out = ["date"; "description"; "amount"]).
Proof.
  intros names Hin. subst names. rewrite <- columns_renamed in *.
  eexists. split; [by apply normalize_columns_ok|].
  intros Huniq.
  assert (∀ n, n ∈ need → columns (labelled n (renamed df)) = [n]) as Hone.
  { intros n Hn.
    destruct (labelled_singleton (renamed df) n) as [v ->]; [by apply Hin| |done].
    specialize (Huniq n Hn).
    rewrite <- columns_labelled in Huniq. unfold columns in Huniq.
    by rewrite length_fmap in Huniq. }
  unfold select, need. cbn [mbind list_bind]. unfold columns in *.
  rewrite !fmap_app, !Hone; [done | set_solver..].
Qed.

Lemma normalize_columns_exactly_three_witness :
  ∃ out,
    normalize_columns
      [ (" Posted Date", ["2024-01-05"]); ("Balance", ["10.00"]);
        ("DEBIT ", ["50.00"]); ("Details", ["KROGER"]) ] = Ok out ∧
    columns out = ["date"; "description"; "amount"].
Proof.
  destruct (normalize_columns_exactly_three
              [ (" Posted Date", ["2024-01-05"]); ("Balance", ["10.00"]);
                ("DEBIT ", ["50.00"]); ("Details", ["KROGER"]) ])
    as (out & Hout & Hcols).
  - intros n Hn. vm_compute in Hn. vm_compute.
    for_each_of Hn set_solver.
  - exists out. split; [exact Hout|]. apply Hcols.
    intros n Hn. vm_compute in Hn.
    for_each_of Hn (vm_compute; lia).
Defined.

Section ExitStatusOfARun.

Context {cell : Type}.
Variable to_datetime : list cell → cell → option Timestamp.
Variable astype_str : cell → option string.
Variable to_numeric : list cell → cell → float.

#[local] Abbreviation label_rows :=
  (categorized to_datetime astype_str to_numeric).
#[local] Abbreviation run := (main to_datetime astype_str to_numeric).


End ExitStatusOfARun.


(** * Further properties *)

(** ** The categorizer, continued *)

Lemma lower_ascii_idemp (c : ascii) :
  PyStr.lower_ascii (PyStr.lower_ascii c) = PyStr.lower_ascii c.
Proof. by destruct c as [[] [] [] [] [] [] [] []]. Qed.

Lemma lower_idemp (s : string) : PyStr.lower (PyStr.lower s) = PyStr.lower s.
Proof.
  induction s as [|c s IH]; [done|].
  simpl. by rewrite lower_ascii_idemp, IH.
Qed.

Lemma first_match_label (d : string) (rs : rules) (cat : string) :
  first_match d rs = Some cat → cat ∈ rs.*1.
Proof.
  intros (pre & kws & post & -> & _)%first_match_some.
  rewrite fmap_app, fmap_cons. apply elem_of_app. right. by left.
Qed.

Lemma first_match_app (d : string) (rs rs' : rules) :
  first_match d (rs ++ rs')
  = match first_match d rs with
    | Some cat => Some cat
    | None => first_match d rs'
    end.
Proof.
  induction rs as [|[c ks] rs IH]; [done|].
  simpl. by destruct (scan_keywords d ks).
Qed.

Lemma scan_keywords_elem (d : string) (keywords : list string) (k : string) :
  k ∈ keywords → PyStr.contains k d = true → scan_keywords d keywords = true.
Proof.
  intros Hk Hc. destruct (scan_keywords d keywords) eqn:E; [done|].
  rewrite scan_keywords_false in E. by rewrite (E k Hk) in Hc.
Qed.

Lemma string_app_assoc (a b c : string) : (a +:+ b) +:+ c = a +:+ b +:+ c.
Proof.
  induction a as [|x a IH]; [done|].
  change (String x a +:+ b) with (String x (a +:+ b)).
  change (String x (a +:+ b) +:+ c) with (String x ((a +:+ b) +:+ c)).
  by rewrite IH.
Qed.

Lemma contains_trans (a b c : string) :
  PyStr.contains a b = true → PyStr.contains b c = true →
  PyStr.contains a c = true.
Proof.
  rewrite !contains_spec. intros (x & y & ->) (u & v & ->).
  exists (u +:+ x), (y +:+ v).
  by rewrite !string_app_assoc.
Qed.

Lemma contains_empty (d : string) : PyStr.contains "" d = true.
Proof. by destruct d. Qed.

(** The answer of [categorize] is a label of the rule set or
    ["uncategorized"], and it does not change when the description is
    lowered beforehand: the case of ASCII letters in a description plays no
    part. *)
Theorem categorize_label_and_case (desc : string) (rs : rules) :
  (categorize desc rs ∈ rs.*1 ∨ categorize desc rs = "uncategorized")
  ∧ categorize (PyStr.lower desc) rs = categorize desc rs.
Proof.
  split.
  - unfold categorize.
    destruct (first_match (PyStr.lower desc) rs) as [cat|] eqn:E; [|by right].
    left. by eapply first_match_label.
  - unfold categorize. by rewrite lower_idemp.
Qed.

(** Rules written after the existing ones apply only to the descriptions the
    existing ones leave without a category: a description that matched keeps
    its category, one that did not gets what the added rules give it. *)
Theorem categorize_appended_rules (desc : string) (rs rs' : rules) :
  (first_match (PyStr.lower desc) rs ≠ None →
   categorize desc (rs ++ rs') = categorize desc rs)
  ∧ (first_match (PyStr.lower desc) rs = None →
     categorize desc (rs ++ rs') = categorize desc rs').
Proof.
  unfold categorize. rewrite first_match_app.
  destruct (first_match (PyStr.lower desc) rs); by split.
Qed.

Lemma categorize_appended_rules_witness :
  categorize "KROGER PIZZA" ([("groceries", ["kroger"])] ++ [("dining", ["pizza"])])
  = categorize "KROGER PIZZA" [("groceries", ["kroger"])]
  ∧ categorize "PIZZA HUT" ([("groceries", ["kroger"])] ++ [("dining", ["pizza"])])
    = categorize "PIZZA HUT" [("dining", ["pizza"])].
Proof.
  split.
  - apply (proj1 (categorize_appended_rules "KROGER PIZZA"
                    [("groceries", ["kroger"])] [("dining", ["pizza"])])).
    discriminate.
  - apply (proj2 (categorize_appended_rules "PIZZA HUT"
                    [("groceries", ["kroger"])] [("dining", ["pizza"])])).
    reflexivity.
Defined.

(** The empty keyword occurs in every description ([kw in d] holds for
    [kw = ""]).  So a category that lists it takes every description no
    earlier keyword takes, and no category after it is ever assigned,
    ["uncategorized"] included. *)
Theorem empty_keyword_takes_all (desc : string) (pre post : rules)
    (cat : string) (keywords : list string) :
  "" ∈ keywords →
  ∃ c, first_match (PyStr.lower desc) (pre ++ (cat, keywords) :: post) = Some c
       ∧ categorize desc (pre ++ (cat, keywords) :: post) = c
       ∧ c ∈ pre.*1 ++ [cat].
Proof.
  intros Hk. unfold categorize. rewrite first_match_app.
  destruct (first_match (PyStr.lower desc) pre) as [c|] eqn:E.
  - exists c. split_and!; [done..|].
    apply elem_of_app. left. by eapply first_match_label.
  - exists cat. simpl.
    rewrite (scan_keywords_elem _ keywords "" Hk (contains_empty _)).
    split_and!; [done..|]. apply elem_of_app. right. by left.
Qed.

Lemma empty_keyword_takes_all_witness :
  ∃ c, first_match (PyStr.lower "ATM WITHDRAWAL")
         ([("groceries", ["kroger"])]
            ++ ("other", ["fee"; ""]) :: [("dining", ["pizza"])]) = Some c
       ∧ categorize "ATM WITHDRAWAL"
           ([("groceries", ["kroger"])]
              ++ ("other", ["fee"; ""]) :: [("dining", ["pizza"])]) = c
       ∧ c ∈ [("groceries", ["kroger"])].*1 ++ ["other"].
Proof.
  apply (empty_keyword_takes_all "ATM WITHDRAWAL"
           [("groceries", ["kroger"])] [("dining", ["pizza"])]
           "other" ["fee"; ""]).
  set_solver.
Defined.

(** Under the built-in rules the keyword [t-mobile] of [utilities] is never
    the one that decides: [mobil] is a keyword of [transport], which comes
    first, so a description that mentions t-mobile is given one of the first
    three categories, [transport] unless a grocery or dining keyword occurs
    in it. *)
Theorem default_rules_shadow_t_mobile (desc : string) :
  PyStr.contains "t-mobile" (PyStr.lower desc) = true →
  categorize desc default_categories ∈ ["groceries"; "dining"; "transport"]
  ∧ (scan_keywords (PyStr.lower desc)
       ["kroger"; "whole foods"; "trader joe"; "walmart"; "costco"] = false →
     scan_keywords (PyStr.lower desc)
       ["mcdonald"; "chipotle"; "starbucks"; "taco bell"; "pizza"; "panera"]
       = false →
     categorize desc default_categories = "transport").
Proof.
  intros Ht.
  assert (scan_keywords (PyStr.lower desc)
            ["uber"; "lyft"; "shell"; "exxon"; "chevron"; "mobil"; "gas"]
          = true) as Htransport.
  { apply (scan_keywords_elem _ _ "mobil"); [set_solver|].
    by apply (contains_trans _ "t-mobile"). }
  unfold categorize, default_categories. cbn [first_match].
  destruct (scan_keywords _ ["kroger"; _; _; _; _]); [set_solver|].
  destruct (scan_keywords _ ["mcdonald"; _; _; _; _; _]); [set_solver|].
  rewrite Htransport. set_solver.
Qed.

Lemma default_rules_shadow_t_mobile_witness :
  categorize "T-MOBILE AUTOPAY" default_categories
    ∈ ["groceries"; "dining"; "transport"]
  ∧ (scan_keywords (PyStr.lower "T-MOBILE AUTOPAY")
       ["kroger"; "whole foods"; "trader joe"; "walmart"; "costco"] = false →
     scan_keywords (PyStr.lower "T-MOBILE AUTOPAY")
       ["mcdonald"; "chipotle"; "starbucks"; "taco bell"; "pizza"; "panera"]
       = false →
     categorize "T-MOBILE AUTOPAY" default_categories = "transport").
Proof. apply (default_rules_shadow_t_mobile "T-MOBILE AUTOPAY"). reflexivity. Defined.


(** ** Column normalization, continued *)

Section NormalizedTables.

Context {cell : Type}.
Implicit Types (df out : DataFrame cell) (n : string) (values : list cell).

Lemma elem_of_select df (keys : list string) (col : string * list cell) :
  col ∈ select keys df ↔ col.1 ∈ keys ∧ col ∈ df.
Proof.
  unfold select. rewrite list_elem_of_bind. split.
  - intros (k & Hcol & Hk). apply elem_of_labelled in Hcol as [<- ?]. done.
  - intros [Hk Hcol]. exists col.1. split; [|done]. by apply elem_of_labelled.
Qed.

Lemma elem_of_renamed df n values :
  (n, values) ∈ renamed df ↔
  ∃ c, (c, values) ∈ df ∧ canonical (PyStr.strip (PyStr.lower c)) = n.
Proof.
  rewrite renamed_eq, list_elem_of_fmap. split.
  - intros ([c v] & [= -> ->] & Hin). by exists c.
  - intros (c & Hin & <-). by exists (c, values).
Qed.

Lemma canonical_need n :
  n ∈ need → canonical (PyStr.strip (PyStr.lower n)) = n.
Proof. intros Hn. unfold need in Hn. for_each_of Hn (by vm_compute). Qed.

Lemma normalize_columns_inv df out :
  normalize_columns df = Ok out →
  (∀ n, n ∈ need → n ∈ columns (renamed df)) ∧ out = select need (renamed df).
Proof.
  unfold normalize_columns.
  destruct (forallb _ need) eqn:E; [|done]. simpl. intros [= <-].
  split; [|done]. by apply need_check.
Qed.

Lemma select_need_idemp df :
  select need (select need df) = select need df.
Proof.
  change (select need (select need df))
    with (labelled "date" (select need df)
            ++ labelled "description" (select need df)
            ++ labelled "amount" (select need df) ++ []).
  by rewrite !labelled_select_need by set_solver.
Qed.

End NormalizedTables.

(** What [normalize_columns] keeps and what it drops.  The columns of the
    result are exactly the columns of the input whose canonical name is
    [date], [description] or [amount], under that name and with their cells
    as they were; every other column is dropped. *)
Theorem normalize_columns_keeps_cells {cell : Type}
    (df out : DataFrame cell) :
  normalize_columns df = Ok out →
  ∀ n values,
    (n, values) ∈ out ↔
    n ∈ need ∧
    ∃ c, (c, values) ∈ df ∧ canonical (PyStr.strip (PyStr.lower c)) = n.
Proof.
  intros [_ ->]%normalize_columns_inv n values.
  by rewrite elem_of_select, elem_of_renamed.
Qed.

Lemma normalize_columns_keeps_cells_witness :
  ("amount", ["50.00"])
    ∈ [ ("date", ["2024-01-05"]); ("description", ["KROGER"]);
        ("amount", ["50.00"]) ] ↔
  "amount" ∈ need ∧
  ∃ c, (c, ["50.00"]) ∈ [ ("Posted Date", ["2024-01-05"]);
                          ("Balance", ["10.00"]);
                          ("Details", ["KROGER"]);
                          ("Debit", ["50.00"]) ]
       ∧ canonical (PyStr.strip (PyStr.lower c)) = "amount".
Proof.
  apply (normalize_columns_keeps_cells
           [ ("Posted Date", ["2024-01-05"]); ("Balance", ["10.00"]);
             ("Details", ["KROGER"]); ("Debit", ["50.00"]) ]).
  by vm_compute.
Defined.

(** A table that has been normalized is left as it is by a second
    normalization. *)
Theorem normalize_columns_idempotent {cell : Type} (df out : DataFrame cell) :
  normalize_columns df = Ok out → normalize_columns out = Ok out.
Proof.
  intros [Hneed ->]%normalize_columns_inv.
  set (d := renamed df) in *.
  assert (renamed (select need d) = select need d) as Hren.
  { rewrite renamed_eq. rewrite <- (list_fmap_id (select need d)) at 2.
    apply list_fmap_ext. intros i [n v] Hi. simpl.
    apply list_elem_of_lookup_2, elem_of_select in Hi as [Hn _].
    by rewrite canonical_need. }
  rewrite normalize_columns_ok; rewrite Hren.
  - by rewrite select_need_idemp.
  - intros n Hn. apply dec_stable. intros Hnot.
    apply labelled_nil in Hnot. rewrite labelled_select_need in Hnot by done.
    apply labelled_nil in Hnot. by apply Hnot, Hneed.
Qed.

Lemma normalize_columns_idempotent_witness :
  normalize_columns
    [ ("date", ["2024-01-05"]); ("description", ["KROGER"]);
      ("amount", ["50.00"]); ("amount", ["0.00"]) ]
  = Ok [ ("date", ["2024-01-05"]); ("description", ["KROGER"]);
         ("amount", ["50.00"]); ("amount", ["0.00"]) ].
Proof.
  apply (normalize_columns_idempotent
           [ ("Date", ["2024-01-05"]); ("Description", ["KROGER"]);
             ("Debit", ["50.00"]); ("Credit", ["0.00"]) ]).
  by vm_compute.
Defined.


(** ** Runs, continued *)

Lemma zero_padded_length (width : nat) (n : Z) (acc : string) :
  String.length (zero_padded width n acc) = (width + String.length acc)%nat.
Proof.
  revert n acc. induction width as [|w IH]; intros n acc; [done|].
  simpl. rewrite IH. simpl. lia.
Qed.

Lemma string_app_length (a b : string) :
  String.length (a +:+ b) = (String.length a + String.length b)%nat.
Proof.
  induction a as [|x a IH]; [done|].
  change (String x a +:+ b) with (String x (a +:+ b)). simpl. by rewrite IH.
Qed.

(** A formatted month has seven characters. *)
Lemma strftime_Ym_length (t : Timestamp) : String.length (strftime_Ym t) = 7%nat.
Proof.
  unfold strftime_Ym. by rewrite !string_app_length, !zero_padded_length.
Qed.

Lemma digit_char_inj (a b : Z) :
  (0 ≤ a < 10)%Z → (0 ≤ b < 10)%Z →
  ascii_of_N (48 + Z.to_N a) = ascii_of_N (48 + Z.to_N b) → a = b.
Proof.
  intros Ha Hb H. apply (f_equal N_of_ascii) in H.
  rewrite !N_ascii_embedding in H by lia. lia.
Qed.

(** On the years and months a [Timestamp] can hold, two dates are formatted
    alike exactly when they fall in the same month of the same year. *)
Lemma strftime_Ym_inj (t1 t2 : Timestamp) :
  (0 ≤ ts_year t1 < 10000)%Z → (0 ≤ ts_month t1 < 100)%Z →
  (0 ≤ ts_year t2 < 10000)%Z → (0 ≤ ts_month t2 < 100)%Z →
  strftime_Ym t1 = strftime_Ym t2 →
  ts_year t1 = ts_year t2 ∧ ts_month t1 = ts_month t2.
Proof.
  destruct t1 as [y1 m1 d1], t2 as [y2 m2 d2]. simpl.
  intros Hy1 Hm1 Hy2 Hm2 H.
  cbv [strftime_Ym zero_padded String.append ts_year ts_month] in H.
  injection H as H1 H2 H3 H4 H5 H6.
  apply digit_char_inj in H1, H2, H3, H4, H5, H6;
    try (apply Z.mod_pos_bound; lia).
  split; Z.div_mod_to_equations; lia.
Qed.


Lemma strftime_Ym_nonempty (t : Timestamp) : strftime_Ym t ≠ "".
Proof.
  intros H. pose proof (strftime_Ym_length t) as Hl. by rewrite H in Hl.
Qed.

Lemma elem_of_month_filter (df : list txn) (m : string) (r : txn) :
  m ≠ "" →
  r ∈ month_filter df (Some m) ↔ r ∈ df ∧ strftime_Ym (date r) = m.
Proof.
  intros Hm. destruct m as [|c m]; [done|].
  unfold month_filter. rewrite list_elem_of_filter. tauto.
Qed.

(** The month filter compares formatted strings, and that is a comparison of
    calendar months: asked for the month of a date [t0], it keeps exactly
    the rows of the year and month of [t0]. *)
Theorem month_filter_calendar_month (df : list txn) (t0 : Timestamp) (r : txn) :
  (0 ≤ ts_year t0 < 10000)%Z → (0 ≤ ts_month t0 < 100)%Z →
  Forall (λ r, (0 ≤ ts_year (date r) < 10000)%Z
               ∧ (0 ≤ ts_month (date r) < 100)%Z) df →
  r ∈ month_filter df (Some (strftime_Ym t0)) ↔
  r ∈ df ∧ ts_year (date r) = ts_year t0 ∧ ts_month (date r) = ts_month t0.
Proof.
  intros Hy Hm Hdf.
  rewrite elem_of_month_filter by apply strftime_Ym_nonempty.
  rewrite Forall_forall in Hdf. split.
  - intros [Hr Heq]. split; [done|].
    destruct (Hdf r Hr). by apply strftime_Ym_inj.
  - intros (Hr & Hyr & Hmr). split; [done|].
    unfold strftime_Ym. by rewrite Hyr, Hmr.
Qed.

Lemma month_filter_calendar_month_witness :
  {| date := {| ts_year := 2024; ts_month := 1; ts_day := 5 |};
     description := "KROGER"; amount := (-50)%float;
     category := "groceries"; type := expense |}
    ∈ month_filter
        [ {| date := {| ts_year := 2024; ts_month := 1; ts_day := 5 |};
             description := "KROGER"; amount := (-50)%float;
             category := "groceries"; type := expense |};
          {| date := {| ts_year := 2023; ts_month := 1; ts_day := 10 |};
             description := "PAYROLL"; amount := 2000%float;
             category := "income"; type := income |} ]
        (Some (strftime_Ym {| ts_year := 2024; ts_month := 1; ts_day := 31 |}))
  ↔ {| date := {| ts_year := 2024; ts_month := 1; ts_day := 5 |};
       description := "KROGER"; amount := (-50)%float;
       category := "groceries"; type := expense |}
      ∈ [ {| date := {| ts_year := 2024; ts_month := 1; ts_day := 5 |};
             description := "KROGER"; amount := (-50)%float;
             category := "groceries"; type := expense |};
          {| date := {| ts_year := 2023; ts_month := 1; ts_day := 10 |};
             description := "PAYROLL"; amount := 2000%float;
             category := "income"; type := income |} ]
    ∧ 2024%Z = 2024%Z ∧ 1%Z = 1%Z.
Proof.
  apply (month_filter_calendar_month _
           {| ts_year := 2024; ts_month := 1; ts_day := 31 |}).
  - simpl. lia.
  - simpl. lia.
  - repeat constructor; simpl; lia.
Defined.

Section FinishedRuns.

Context {cell : Type}.
Variable to_datetime : list cell → cell → option Timestamp.
Variable astype_str : cell → option string.
Variable to_numeric : list cell → cell → float.

#[local] Abbreviation run := (main to_datetime astype_str to_numeric).
#[local] Abbreviation label_rows :=
  (categorized to_datetime astype_str to_numeric).

Lemma filtered_inv (a : args) (df df' : list txn) :
  filtered a df = Ok df' →
  (given (month a) = false ∧ df' = df)
  ∨ (∃ m, month a = Some m ∧ m ≠ "" ∧ df' ≠ [] ∧
          df' = month_filter df (Some m)).
Proof.
  unfold filtered. destruct (month a) as [[|c m]|] eqn:Hm; simpl.
  - intros [= <-]. by left.
  - destruct (filter _ df) as [|r l] eqn:E; [done|]. intros [= <-].
    right. exists (String c m). by rewrite E.
  - intros [= <-]. by left.
Qed.

(** The tag of a finished run and the rows it writes.  Without a month the
    tag is [ALL] and the table written is the whole categorized table.  With
    a month the tag is that month, the table written is not empty and every
    row of it has a date of that month.  And the tag [ALL] belongs to the
    runs without a month: [--month ALL] selects nothing and writes
    nothing. *)
Theorem finished_run_tag (a : args) (file : option (option rules))
    (csv : DataFrame cell) (rep : report) :
  run a file csv = Ok rep →
  (given (month a) = false →
     month_tag rep = "ALL" ∧
     label_rows a (load_yaml file default_categories) csv
       = Ok (transactions rep))
  ∧ (given (month a) = true →
       month a = Some (month_tag rep) ∧
       transactions rep ≠ [] ∧
       Forall (λ r, strftime_Ym (date r) = month_tag rep) (transactions rep))
  ∧ (month_tag rep = "ALL" → given (month a) = false).
Proof.
  intros Hrun.
  pose proof (main_transactions _ _ _ _ _ _ _ Hrun) as (df & Hdf & Hf).
  assert (month_tag rep
          = if given (month a) then default "" (month a) else "ALL") as Htag.
  { revert Hrun. unfold main. rewrite Hdf. cbn [mbind outcome_bind]. rewrite Hf.
    cbn [mbind outcome_bind].
    rewrite aggregate_eq. by intros [= <-]. }
  apply filtered_inv in Hf
    as [[Hg Heq] | (m & Hm & Hne & Hnil & Heq)].
  - rewrite Hg in Htag. split_and!; [|by rewrite Hg|done].
    intros _. by rewrite Heq.
  - assert (given (month a) = true) as Hg by (rewrite Hm; by destruct m).
    rewrite Hg, Hm in Htag. simpl in Htag. subst m.
    assert (Forall (λ r, strftime_Ym (date r) = month_tag rep)
              (transactions rep)) as Hall.
    { apply Forall_forall. intros r Hr. rewrite Heq in Hr.
      by apply elem_of_month_filter in Hr as [_ ?]. }
    split_and!; [by rewrite Hg | done |].
    intros Hall'. exfalso.
    destruct (transactions rep) as [|r l] eqn:E; [done|].
    apply Forall_cons in Hall as [Hr _].
    pose proof (strftime_Ym_length (date r)) as Hlen.
    by rewrite Hr, Hall' in Hlen.
Qed.

(** Which rules a finished run has applied.  Without a rules file, the
    built-in ones; with one, those of the file and nothing of the built-in
    ones; and with a file that holds no document, none at all: every row is
    then ["uncategorized"]. *)
Theorem rules_file_overrides (a : args) (file : option (option rules))
    (csv : DataFrame cell) (rep : report) :
  run a file csv = Ok rep →
  Forall
    (λ r, (file = None →
             category r = categorize (description r) default_categories)
          ∧ (∀ doc, file = Some (Some doc) →
               category r = categorize (description r) doc)
          ∧ (file = Some None → category r = "uncategorized"))
    (transactions rep).
Proof.
  intros (df & Hdf & Hf)%main_transactions.
  apply categorized_rows in Hdf as (? & ? & ? & _ & Hall).
  rewrite Forall_forall in Hall. apply Forall_forall. intros r Hr.
  destruct (Hall r) as [Hc _]; [by eapply filtered_subseteq|].
  rewrite Hc. split_and!.
  - by intros ->.
  - by intros doc ->.
  - by intros ->.
Qed.

Lemma series_select (csv : DataFrame cell) (n exc : string) :
  n ∈ need → n ∈ columns (renamed csv) →
  (∃ values, labelled n (renamed csv) = [(n, values)] ∧
             series n exc (select need (renamed csv)) = Ok values)
  ∨ ((2 ≤ List.length (labelled n (renamed csv)))%nat ∧
     series n exc (select need (renamed csv)) = Raised exc).
Proof.
  intros Hn Hin. unfold series, getitem.
  rewrite labelled_select_need by done.
  destruct (labelled n (renamed csv)) as [|[c v] [|col l]] eqn:E.
  - by apply labelled_nil in E.
  - left. exists v. split; [|done].
    assert ((c, v) ∈ labelled n (renamed csv)) as Hl by (rewrite E; by left).
    by apply elem_of_labelled in Hl as [<- _].
  - right. split; [simpl; lia | done].
Qed.


End FinishedRuns.

Lemma finished_run_tag_witness :
  ∃ rep,
    Text.run {| month := Some "2024-01"; invert := false |} None
      [ ("date", ["2024-01-05"; "2024-02-10"]);
        ("description", ["KROGER"; "PAYROLL"]);
        ("amount", ["-50.00"; "2000.00"]) ] = Ok rep
    ∧ Some "2024-01" = Some (month_tag rep)
    ∧ transactions rep ≠ []
    ∧ Forall (λ r, strftime_Ym (date r) = month_tag rep) (transactions rep).
Proof.
  assert (∃ rep,
            Text.run {| month := Some "2024-01"; invert := false |} None
              [ ("date", ["2024-01-05"; "2024-02-10"]);
                ("description", ["KROGER"; "PAYROLL"]);
                ("amount", ["-50.00"; "2000.00"]) ] = Ok rep)
    as [rep Hrep] by (vm_compute; eauto).
  exists rep. split; [exact Hrep|]. unfold Text.run in Hrep.
  destruct (finished_run_tag Text.to_datetime Text.astype_str Text.to_numeric
              _ _ _ rep Hrep) as (_ & H & _).
  by apply H.
Defined.

Lemma rules_file_overrides_witness :
  ∃ rep,
    Text.run {| month := None; invert := false |} (Some None)
      [ ("date", ["2024-01-05"; "2024-02-10"]);
        ("description", ["KROGER"; "PAYROLL"]);
        ("amount", ["-50.00"; "2000.00"]) ] = Ok rep
    ∧ Forall (λ r, category r = "uncategorized") (transactions rep).
Proof.
  assert (∃ rep,
            Text.run {| month := None; invert := false |} (Some None)
              [ ("date", ["2024-01-05"; "2024-02-10"]);
                ("description", ["KROGER"; "PAYROLL"]);
                ("amount", ["-50.00"; "2000.00"]) ] = Ok rep)
    as [rep Hrep] by (vm_compute; eauto).
  exists rep. split; [exact Hrep|]. unfold Text.run in Hrep.
  eapply Forall_impl;
    [exact (rules_file_overrides Text.to_datetime Text.astype_str
              Text.to_numeric _ _ _ rep Hrep)|].
  intros r (_ & _ & H). by apply H.
Defined.


(** ** The report *)

Section Report.

#[local] Open Scope float_scope.

Lemma elem_of_groupby_category_sum (df : list txn) (k : string) (v : float) :
  (k, v) ∈ groupby_category_sum df ↔
  (∃ r, r ∈ df ∧ category r = k) ∧
  v = group_sum (amount <$> filter (λ r, category r = k) df).
Proof.
  unfold groupby_category_sum. rewrite list_elem_of_fmap. split.
  - intros (k' & [= -> ->] & Hk). split; [|done].
    rewrite merge_sort_Permutation, elem_of_remove_dups in Hk.
    apply list_elem_of_fmap in Hk as (r & -> & Hr). by exists r.
  - intros [(r & Hr & <-) ->]. exists (category r). split; [done|].
    rewrite merge_sort_Permutation, elem_of_remove_dups.
    apply list_elem_of_fmap. by exists r.
Qed.

Lemma groupby_category_sum_keys (df : list txn) :
  (groupby_category_sum df).*1
  = merge_sort String.le (remove_dups (category <$> df)).
Proof.
  unfold groupby_category_sum. rewrite <- list_fmap_compose.
  rewrite <- (list_fmap_id (merge_sort _ _)) at 2. by apply list_fmap_ext.
Qed.

Lemma NoDup_groupby_category_sum (df : list txn) :
  NoDup (groupby_category_sum df).*1.
Proof.
  rewrite groupby_category_sum_keys, merge_sort_Permutation.
  apply NoDup_remove_dups.
Qed.

Lemma sort_values_Permutation (s : list (string * float)) : sort_values s ≡ₚ s.
Proof. apply merge_sort_Permutation. Qed.

Lemma sort_values_descending_Permutation (s : list (string * float)) :
  sort_values_descending s ≡ₚ s.
Proof. apply merge_sort_Permutation. Qed.

(** The table of expenses by category, up to the order of its entries. *)
Lemma expenses_by_cat_Permutation (df : list txn) (tag : string)
    (rep : report) :
  aggregate df tag = Ok rep →
  expenses_by_cat rep
  ≡ₚ (λ e, (e.1, - e.2))
       <$> groupby_category_sum (filter (λ r, type r = expense) df).
Proof.
  rewrite aggregate_eq. intros [= <-]. simpl. apply sort_values_Permutation.
Qed.

Lemma elem_of_expenses_by_cat (df : list txn) (tag : string) (rep : report)
    (k : string) (v : float) :
  aggregate df tag = Ok rep →
  (k, v) ∈ expenses_by_cat rep ↔
  (∃ r, r ∈ df ∧ type r = expense ∧ category r = k) ∧
  v = - group_sum (amount
                     <$> filter (λ r, category r = k)
                           (filter (λ r, type r = expense) df)).
Proof.
  intros Hperm%expenses_by_cat_Permutation.
  rewrite Hperm, list_elem_of_fmap. split.
  - intros ([k' v'] & [= -> ->] & Hin). simpl.
    apply elem_of_groupby_category_sum in Hin as [(r & Hr & Hk) ->].
    split; [|done]. exists r.
    by apply list_elem_of_filter in Hr as [? ?].
  - intros [(r & Hr & Ht & Hk) ->].
    exists (k, group_sum (amount
                            <$> filter (λ r, category r = k)
                                  (filter (λ r, type r = expense) df))).
    split; [done|]. apply elem_of_groupby_category_sum. split; [|done].
    exists r. split; [|done]. by apply list_elem_of_filter.
Qed.

Lemma NoDup_expenses_by_cat (df : list txn) (tag : string) (rep : report) :
  aggregate df tag = Ok rep → NoDup (expenses_by_cat rep).*1.
Proof.
  intros Hperm%expenses_by_cat_Permutation.
  rewrite Hperm, <- list_fmap_compose.
  change (fst ∘ (λ e : string * float, (e.1, - e.2)))
    with (fst : string * float → string).
  apply NoDup_groupby_category_sum.
Qed.

End Report.

(** The table written to [category_expenses_<tag>.csv].  It has one entry
    for each category that has an expense row, and no category twice; the
    value of an entry is the negated sum, as [groupby(...).sum()] takes it
    (with compensation), of the amounts of the expense rows of its category
    in table order.  When the types of the table follow its amounts, that is
    the opposite of the amount for a category of one expense row, and the
    opposite of the binary64 sum of the two amounts for a category of
    two. *)
Theorem expenses_by_cat_entries (df : list txn) (tag : string) (rep : report) :
  aggregate df tag = Ok rep →
  NoDup (expenses_by_cat rep).*1
  ∧ (∀ k v,
       (k, v) ∈ expenses_by_cat rep ↔
       (∃ r, r ∈ df ∧ type r = expense ∧ category r = k) ∧
       v = (- group_sum
               (amount
                  <$> filter (λ r, category r = k)
                        (filter (λ r, type r = expense) df)))%float)
  ∧ (Forall (λ r, type r = type_of_amount (amount r)) df →
     ∀ k v, (k, v) ∈ expenses_by_cat rep →
       (∀ r, filter (λ r, category r = k) (filter (λ r, type r = expense) df)
             = [r] →
             v = (- amount r)%float) ∧
       (∀ r1 r2,
          filter (λ r, category r = k) (filter (λ r, type r = expense) df)
          = [r1; r2] →
          v = (- (amount r1 + amount r2))%float)).
Proof.
  intros Hrep. split_and!.
  - by eapply NoDup_expenses_by_cat.
  - intros k v. by eapply elem_of_expenses_by_cat.
  - intros Htyped k v Hin.
    apply (elem_of_expenses_by_cat _ _ _ _ _ Hrep) in Hin as [_ ->].
    assert (∀ r, r ∈ filter (λ r, category r = k)
                       (filter (λ r, type r = expense) df) →
                 sf_signed true (Prim2SF (amount r))) as Hneg.
    { intros r [_ Hr]%list_elem_of_filter.
      pose proof (expense_amounts_negative df Htyped) as H.
      rewrite Forall_fmap, Forall_forall in H.
      by apply negative_signed, H. }
    split.
    + intros r Hr. rewrite Hr in Hneg |- *. simpl.
      rewrite (group_sum_one true); [done|]. apply Hneg. by left.
    + intros r1 r2 Hr. rewrite Hr in Hneg |- *. simpl.
      rewrite (group_sum_two true); [done|]. apply Hneg. by left.
Qed.

(** Three purchases of 0.10, 0.20 and 0.30 in one category: the entry of
    the category is 0.6. *)
Lemma expenses_by_cat_entries_witness :
  ∃ rep,
    Text.run {| month := None; invert := false |} None
      [ ("date", ["2024-01-05"; "2024-01-07"; "2024-01-09"; "2024-01-10"]);
        ("description", ["KROGER"; "KROGER"; "KROGER"; "UBER"]);
        ("amount", ["-0.10"; "-0.20"; "-0.30"; "-12.50"]) ] = Ok rep
    ∧ NoDup (expenses_by_cat rep).*1
    ∧ ("groceries", 0x1.3333333333333p-1%float) ∈ expenses_by_cat rep
    ∧ ("transport", 12.5%float) ∈ expenses_by_cat rep.
Proof.
  assert (∃ rep,
            Text.run {| month := None; invert := false |} None
              [ ("date",
                 ["2024-01-05"; "2024-01-07"; "2024-01-09"; "2024-01-10"]);
                ("description", ["KROGER"; "KROGER"; "KROGER"; "UBER"]);
                ("amount", ["-0.10"; "-0.20"; "-0.30"; "-12.50"]) ] = Ok rep)
    as [rep Hrep] by (vm_compute; eauto).
  exists rep. split; [exact Hrep|]. unfold Text.run in Hrep.
  pose proof (main_report _ _ _ _ _ _ _ Hrep) as Hagg.
  destruct (expenses_by_cat_entries _ _ _ Hagg) as (Hnodup & Helem & _).
  split; [exact Hnodup|].
  vm_compute in Hrep. injection Hrep as <-.
  split; apply Helem; (split; [|by vm_compute]).
  - eexists. split; [by left | done].
  - eexists. split; [by do 3 right; left | done].
Defined.


(** The list of the report and the plot.  The report lists ten categories,
    or all of them when there are fewer; each is an entry of the table of
    expenses by category, and none comes twice.  The plot is drawn exactly
    when some row of the table is an expense. *)
Theorem report_lists_top_expenses (df : list txn) (tag : string)
    (rep : report) :
  aggregate df tag = Ok rep →
  List.length (top_expenses rep)
    = (10 `min` List.length (expenses_by_cat rep))%nat
  ∧ (∀ e, e ∈ top_expenses rep → e ∈ expenses_by_cat rep)
  ∧ NoDup (top_expenses rep).*1
  ∧ ((List.length (expenses_by_cat rep) ≤ 10)%nat →
     top_expenses rep ≡ₚ expenses_by_cat rep)
  ∧ (chart_written rep = true ↔ ∃ r, r ∈ df ∧ type r = expense).
Proof.
  intros Hrep.
  pose proof (NoDup_expenses_by_cat df tag rep Hrep) as Hnodup.
  pose proof (λ k v, elem_of_expenses_by_cat df tag rep k v Hrep) as Helem.
  pose proof (sort_values_descending_Permutation (expenses_by_cat rep))
    as Hperm.
  unfold top_expenses. split_and!.
  - by rewrite length_take, Hperm.
  - intros e He. rewrite <- Hperm. by eapply subseteq_take.
  - rewrite fmap_take. eapply sublist_NoDup; [|apply sublist_take].
    by rewrite Hperm.
  - intros Hlen. rewrite take_ge; [done|]. by rewrite Hperm.
  - unfold chart_written. rewrite bool_decide_eq_true. split.
    + intros Hpos. destruct (expenses_by_cat rep) as [|[k v] l] eqn:E;
        [simpl in Hpos; lia|].
      destruct (proj1 (Helem k v)) as [(r & Hr & Ht & _) _]; [by left|].
      by exists r.
    + intros (r & Hr & Ht).
      assert ((category r,
               (- group_sum
                    (amount
                       <$> filter (λ r', category r' = category r)
                             (filter (λ r', type r' = expense) df)))%float)
              ∈ expenses_by_cat rep) as Hin.
      { apply Helem. split; [|done]. by exists r. }
      destruct (expenses_by_cat rep); [by apply elem_of_nil in Hin|].
      simpl. lia.
Qed.

Lemma report_lists_top_expenses_witness :
  ∃ rep,
    aggregate
      [ {| date := {| ts_year := 2024; ts_month := 1; ts_day := 5 |};
           description := "KROGER"; amount := (-50)%float;
           category := "groceries"; type := expense |};
        {| date := {| ts_year := 2024; ts_month := 1; ts_day := 10 |};
           description := "PAYROLL"; amount := 2000%float;
           category := "income"; type := income |} ] "ALL" = Ok rep
    ∧ List.length (top_expenses rep)
        = (10 `min` List.length (expenses_by_cat rep))%nat
    ∧ NoDup (top_expenses rep).*1
    ∧ chart_written rep = true.
Proof.
  eexists. split; [apply aggregate_eq|].
  match goal with
  | |- context [top_expenses ?r] =>
      destruct (report_lists_top_expenses _ "ALL" r (aggregate_eq _ "ALL"))
        as (Hlen & _ & Hnodup & _ & Hchart)
  end.
  split_and!; [exact Hlen | exact Hnodup |].
  apply Hchart. eexists. split; [by left | done].
Defined.


Lemma string_app_inv_r (a b s : string) : a +:+ s = b +:+ s → a = b.
Proof.
  revert b. induction a as [|x a IH]; intros [|y b] H.
  - done.
  - apply (f_equal String.length) in H.
    rewrite !string_app_length in H. simpl in H. lia.
  - apply (f_equal String.length) in H.
    rewrite !string_app_length in H. simpl in H. lia.
  - change (String x (a +:+ s) = String y (b +:+ s)) in H.
    injection H as -> H. by rewrite (IH b H).
Qed.

(** A path of the form prefix, tag, suffix names its tag. *)
Lemma path_inj (prefix suffix t1 t2 : string) :
  prefix +:+ t1 +:+ suffix = prefix +:+ t2 +:+ suffix → t1 = t2.
Proof. intros H%(inj (String.append prefix)). by eapply string_app_inv_r. Qed.

(** The files of a run are distinct, and they carry the tag of the run in
    their names: two runs with different tags have no file in common, so a
    run for one month never overwrites the files of another month or of a
    run over all months. *)
Theorem written_files_by_tag (rep1 rep2 : report) :
  NoDup (written_files rep1)
  ∧ (month_tag rep1 ≠ month_tag rep2 →
     ∀ p, p ∈ written_files rep1 → p ∉ written_files rep2).
Proof.
  split.
  - unfold written_files. destruct (chart_written rep1);
      repeat (apply NoDup_cons; split;
              [intros H; repeat (apply elem_of_cons in H as [H|H];
                                 [cbv [String.append] in H; discriminate H|]);
               by apply elem_of_nil in H |]);
      apply NoDup_nil_2.
  - intros Htag p H1 H2. unfold written_files in H1, H2.
    apply elem_of_app in H1 as [H1|H1], H2 as [H2|H2].
    + repeat (apply elem_of_cons in H1 as [->|H1];
              [repeat (apply elem_of_cons in H2 as [H2|H2];
                       [first [ by apply path_inj in H2
                              | cbv [String.append] in H2; discriminate H2 ]|]);
               by apply elem_of_nil in H2 |]).
      by apply elem_of_nil in H1.
    + destruct (chart_written rep2); [|by apply elem_of_nil in H2].
      apply list_elem_of_singleton in H2 as ->.
      repeat (apply elem_of_cons in H1 as [H1|H1];
              [cbv [String.append] in H1; discriminate H1|]).
      by apply elem_of_nil in H1.
    + destruct (chart_written rep1); [|by apply elem_of_nil in H1].
      apply list_elem_of_singleton in H1 as ->.
      repeat (apply elem_of_cons in H2 as [H2|H2];
              [cbv [String.append] in H2; discriminate H2|]).
      by apply elem_of_nil in H2.
    + destruct (chart_written rep1); [|by apply elem_of_nil in H1].
      destruct (chart_written rep2); [|by apply elem_of_nil in H2].
      apply list_elem_of_singleton in H1 as ->.
      apply list_elem_of_singleton in H2. by apply path_inj in H2.
Qed.


(** ** Inversion and the totals *)

Section InvertedSums.

#[local] Open Scope float_scope.

Lemma type_of_amount_opp (x : float) :
  type_of_amount (- x) = opposite (type_of_amount x).
Proof.
  unfold type_of_amount. rewrite !ltb_spec, opp_spec.
  change (Prim2SF 0) with (S754_zero false).
  by destruct (Prim2SF x) as [[]|[]| |[] m e].
Qed.

End InvertedSums.


Lemma make_rows_inverted (dates : list Timestamp) (descriptions : list string)
    (amounts : list float) (categories : list string) :
  make_rows dates descriptions (negated amounts) categories
    (type_of_amount <$> negated amounts)
  = inverted_row
      <$> make_rows dates descriptions amounts categories
            (type_of_amount <$> amounts).
Proof.
  revert descriptions amounts categories.
  induction dates as [|d dates IH];
    intros [|s descriptions] [|x amounts] [|c categories]; try done.
  cbn [negated fmap list_fmap make_rows]. f_equal.
  - unfold inverted_row. simpl. by rewrite type_of_amount_opp.
  - apply IH.
Qed.

Lemma filter_fmap_inverted_row (P Q : txn → Prop)
    `{!∀ r, Decision (P r)} `{!∀ r, Decision (Q r)} (df : list txn) :
  (∀ r, P (inverted_row r) ↔ Q r) →
  filter P (inverted_row <$> df) = inverted_row <$> filter Q df.
Proof.
  intros HPQ. induction df as [|r df IH]; [done|].
  rewrite fmap_cons. destruct (decide (Q r)) as [Hq|Hq].
  - rewrite !filter_cons_True by (done || by apply HPQ).
    by rewrite fmap_cons, IH.
  - rewrite !filter_cons_False by (done || by rewrite HPQ). done.
Qed.

Lemma month_filter_inverted (df : list txn) (month : option string) :
  month_filter (inverted_row <$> df) month
  = inverted_row <$> month_filter df month.
Proof.
  destruct month as [[|c m]|]; [done| |done].
  unfold month_filter. by apply filter_fmap_inverted_row.
Qed.

Section InvertedRuns.

Context {cell : Type}.
Variable to_datetime : list cell → cell → option Timestamp.
Variable astype_str : cell → option string.
Variable to_numeric : list cell → cell → float.

#[local] Abbreviation run := (main to_datetime astype_str to_numeric).
#[local] Abbreviation label_rows :=
  (categorized to_datetime astype_str to_numeric).

Lemma parsed_inverted (m : option string) (csv : DataFrame cell) :
  parsed to_datetime astype_str to_numeric
    {| month := m; invert := true |} csv
  = match parsed to_datetime astype_str to_numeric
            {| month := m; invert := false |} csv with
    | Ok (dates, descriptions, amounts) =>
        Ok (dates, descriptions, negated amounts)
    | SystemExit msg => SystemExit msg
    | Raised exc => Raised exc
    end.
Proof.
  unfold parsed. cbn [invert].
  destruct (normalize_columns csv) as [df| |]; [|done..]. cbn.
  destruct (series "date" "ValueError" df) as [raw_dates| |]; [|done..]. cbn.
  destruct (existsb _ (to_datetime raw_dates <$> raw_dates)); [done|].
  destruct (series "description" "AttributeError" df)
    as [raw_desc| |]; [|done..]. cbn.
  destruct (series "amount" "TypeError" df) as [raw_am| |]; [|done..]. cbn.
  by destruct (existsb is_nan (to_numeric raw_am <$> raw_am)).
Qed.

Lemma categorized_inverted (m : option string) (rs : rules)
    (csv : DataFrame cell) :
  label_rows {| month := m; invert := true |} rs csv
  = match label_rows {| month := m; invert := false |} rs csv with
    | Ok df => Ok (inverted_row <$> df)
    | SystemExit msg => SystemExit msg
    | Raised exc => Raised exc
    end.
Proof.
  rewrite !categorized_eq, parsed_inverted.
  destruct (parsed _ _ _ _ csv) as [[[dates descriptions] amounts]| |];
    [|done..].
  destruct (bool_decide (None ∈ descriptions)); [done|].
  by rewrite make_rows_inverted.
Qed.

Lemma filtered_inverted (m : option string) (df : list txn) :
  filtered {| month := m; invert := true |} (inverted_row <$> df)
  = match filtered {| month := m; invert := false |} df with
    | Ok df' => Ok (inverted_row <$> df')
    | SystemExit msg => SystemExit msg
    | Raised exc => Raised exc
    end.
Proof.
  unfold filtered. cbn [month]. destruct (given m); [|done].
  rewrite month_filter_inverted. by destruct (month_filter df m).
Qed.

Lemma amounts_of_inverted (t : txn_type) (df : list txn) :
  amount <$> filter (λ r, type r = opposite t) (inverted_row <$> df)
  = negated (amount <$> filter (λ r, type r = t) df).
Proof.
  rewrite (filter_fmap_inverted_row _ (λ r, type r = t)).
  - unfold negated. rewrite <- !list_fmap_compose. by apply list_fmap_ext.
  - intros r. unfold inverted_row. simpl.
    destruct (type r), t; simpl; split; congruence.
Qed.

(** A run with [--invert] is the run without it seen from the other side.
    It fails when that one fails, in the same way.  When that one finishes,
    it finishes too, on the same rows with amounts negated and income and
    expense exchanged; its income total is the other's expense total if
    there is an expense row, and its expense total the other's income total
    if there is an income row.  (With no such row the two totals are the
    two zeros of binary64, [0.0] and [-0.0].) *)
Theorem invert_exchanges_income_and_expense (m : option string)
    (file : option (option rules)) (csv : DataFrame cell) :
  match run {| month := m; invert := false |} file csv with
  | SystemExit msg =>
      run {| month := m; invert := true |} file csv = SystemExit msg
  | Raised exc =>
      run {| month := m; invert := true |} file csv = Raised exc
  | Ok rep =>
      ∃ rep',
        run {| month := m; invert := true |} file csv = Ok rep' ∧
        transactions rep' = inverted_row <$> transactions rep ∧
        month_tag rep' = month_tag rep ∧
        ((∃ r, r ∈ transactions rep ∧ type r = expense) →
         total_income rep' = total_expense rep) ∧
        ((∃ r, r ∈ transactions rep ∧ type r = income) →
         total_expense rep' = total_income rep)
  end.
Proof.
  destruct (run {| month := m; invert := false |} file csv)
    as [rep|msg|exc] eqn:Hrun.
  2,3: revert Hrun; unfold main; rewrite categorized_inverted;
       destruct (label_rows _ _ csv) as [df| |]; [|done..];
       cbn [mbind outcome_bind]; rewrite filtered_inverted;
       destruct (filtered _ df) as [df'| |]; [|done..];
       cbn [mbind outcome_bind]; by rewrite aggregate_eq.
  pose proof (main_types _ _ _ _ _ _ _ Hrun) as Htyped.
  pose proof (main_report _ _ _ _ _ _ _ Hrun) as Hrep.
  pose proof (main_transactions _ _ _ _ _ _ _ Hrun) as (df & Hdf & Hf).
  assert (month_tag rep = if given m then default "" m else "ALL") as Htag.
  { revert Hrun. unfold main. rewrite Hdf. cbn [mbind outcome_bind]. rewrite Hf.
    cbn [mbind outcome_bind].
    rewrite aggregate_eq. by intros [= <-]. }
  rewrite aggregate_eq in Hrep. injection Hrep as Hrep.
  pose proof (f_equal total_income Hrep) as Hti.
  pose proof (f_equal total_expense Hrep) as Hte.
  cbn [total_income total_expense] in Hti, Hte. clear Hrep.
  eexists. split.
  { unfold main. rewrite categorized_inverted, Hdf. cbn [mbind outcome_bind].
    rewrite filtered_inverted, Hf. cbn [mbind outcome_bind month].
    apply aggregate_eq. }
  cbn [transactions month_tag total_income total_expense].
  split_and!; [done | done | |].
  - intros (r & Hr & Ht).
    rewrite (amounts_of_inverted expense), <- Hte.
    apply (sum_negated true).
    + intros Hnil. apply fmap_nil_inv in Hnil.
      assert (r ∈ filter (λ r, type r = expense) (transactions rep)) as Hin
        by (by apply list_elem_of_filter).
      rewrite Hnil in Hin. by apply elem_of_nil in Hin.
    + eapply Forall_impl; [by apply expense_amounts_negative|].
      intros x. apply negative_signed.
  - intros (r & Hr & Ht).
    rewrite (amounts_of_inverted income), <- Hti.
    rewrite (sum_negated false).
    + apply opp_involutive.
    + intros Hnil. apply fmap_nil_inv in Hnil.
      assert (r ∈ filter (λ r, type r = income) (transactions rep)) as Hin
        by (by apply list_elem_of_filter).
      rewrite Hnil in Hin. by apply elem_of_nil in Hin.
    + eapply Forall_impl; [by apply income_amounts_positive|].
      intros x. apply positive_signed.
Qed.

End InvertedRuns.

Lemma invert_exchanges_income_and_expense_witness :
  ∃ rep rep',
    Text.run {| month := None; invert := false |} None
      [ ("date", ["2024-01-05"; "2024-01-10"]);
        ("description", ["KROGER"; "PAYROLL"]);
        ("amount", ["-50.00"; "2000.00"]) ] = Ok rep
    ∧ Text.run {| month := None; invert := true |} None
        [ ("date", ["2024-01-05"; "2024-01-10"]);
          ("description", ["KROGER"; "PAYROLL"]);
          ("amount", ["-50.00"; "2000.00"]) ] = Ok rep'
    ∧ total_income rep' = total_expense rep
    ∧ total_expense rep' = total_income rep.
Proof.
  assert (∃ rep,
            Text.run {| month := None; invert := false |} None
              [ ("date", ["2024-01-05"; "2024-01-10"]);
                ("description", ["KROGER"; "PAYROLL"]);
                ("amount", ["-50.00"; "2000.00"]) ] = Ok rep)
    as [rep Hrep] by (vm_compute; eauto).
  pose proof (invert_exchanges_income_and_expense Text.to_datetime
                Text.astype_str Text.to_numeric None None
                [ ("date", ["2024-01-05"; "2024-01-10"]);
                  ("description", ["KROGER"; "PAYROLL"]);
                  ("amount", ["-50.00"; "2000.00"]) ]) as H.
  unfold Text.run in Hrep. rewrite Hrep in H.
  destruct H as (rep' & Hrep' & _ & _ & Hi & He).
  exists rep, rep'. split_and!; [exact Hrep | exact Hrep' | |].
  - apply Hi. vm_compute in Hrep. injection Hrep as <-.
    eexists. split; [by left | done].
  - apply He. vm_compute in Hrep. injection Hrep as <-.
    eexists. split; [by right; left | done].
Defined.


(** ** Stripped text *)

Section Strip.

Import PyStr.

Lemma string_app_nil_r (s : string) : s +:+ "" = s.
Proof.
  induction s as [|c s IH]; [done|].
  change (String c s +:+ "") with (String c (s +:+ "")). by rewrite IH.
Qed.

Lemma string_app_cons (c : ascii) (s t : string) :
  String c s +:+ t = String c (s +:+ t).
Proof. done. Qed.

Lemma rev_app_eq (s t : string) : String.rev_app s t = String.rev s +:+ t.
Proof.
  revert t. induction s as [|c s IH]; intros t; [done|].
  unfold String.rev. simpl. rewrite !IH.
  by rewrite string_app_assoc.
Qed.

Lemma rev_cons (c : ascii) (s : string) :
  String.rev (String c s) = String.rev s +:+ String c "".
Proof. unfold String.rev at 1. simpl. apply rev_app_eq. Qed.

Lemma rev_app_distr (a b : string) :
  String.rev (a +:+ b) = String.rev b +:+ String.rev a.
Proof.
  induction a as [|c a IH].
  - change ("" +:+ b) with b. by rewrite string_app_nil_r.
  - rewrite string_app_cons, !rev_cons, IH. by rewrite string_app_assoc.
Qed.

Lemma rev_involutive (s : string) : String.rev (String.rev s) = s.
Proof.
  induction s as [|c s IH]; [done|].
  rewrite rev_cons, rev_app_distr, IH. done.
Qed.

Lemma all_space_app (a b : string) :
  all_space (a +:+ b) = all_space a && all_space b.
Proof.
  induction a as [|c a IH]; [done|].
  rewrite string_app_cons. simpl. by rewrite IH, andb_assoc.
Qed.

Lemma all_space_rev (s : string) : all_space (String.rev s) = all_space s.
Proof.
  induction s as [|c s IH]; [done|].
  rewrite rev_cons, all_space_app, IH. simpl.
  by rewrite andb_true_r, andb_comm.
Qed.

Lemma lstrip_prefix (s : string) :
  ∃ a, s = a +:+ lstrip s ∧ all_space a = true.
Proof.
  induction s as [|c s (a & Ha & Hsp)]; [by exists ""|].
  simpl. destruct (is_space c) eqn:E.
  - exists (String c a). rewrite string_app_cons, <- Ha. simpl.
    by rewrite E, Hsp.
  - by exists "".
Qed.

Lemma lstrip_head (s : string) (c : ascii) (t : string) :
  lstrip s = String c t → is_space c = false.
Proof.
  induction s as [|x s IH]; [done|].
  simpl. destruct (is_space x) eqn:E; [done|]. by intros [= <- _].
Qed.

Lemma lstrip_id (s : string) :
  (∀ c t, s = String c t → is_space c = false) → lstrip s = s.
Proof.
  destruct s as [|c s]; [done|]. intros H. simpl.
  by rewrite (H c s eq_refl).
Qed.

Lemma rstrip_suffix (s : string) :
  ∃ b, s = rstrip s +:+ b ∧ all_space b = true.
Proof.
  destruct (lstrip_prefix (String.rev s)) as (a & Ha & Hsp).
  exists (String.rev a). split; [|by rewrite all_space_rev].
  unfold rstrip. rewrite <- rev_app_distr, <- Ha. by rewrite rev_involutive.
Qed.

Lemma rstrip_last (s t : string) (c : ascii) :
  rstrip s = t +:+ String c "" → is_space c = false.
Proof.
  unfold rstrip. intros H. apply (f_equal String.rev) in H.
  rewrite rev_involutive, rev_app_distr in H.
  by apply lstrip_head in H.
Qed.

Lemma rstrip_id (s : string) :
  (∀ t c, s = t +:+ String c "" → is_space c = false) → rstrip s = s.
Proof.
  intros H. unfold rstrip. rewrite lstrip_id; [apply rev_involutive|].
  intros c t Hrev. apply (H (String.rev t) c).
  apply (f_equal String.rev) in Hrev.
  by rewrite rev_involutive, rev_cons in Hrev.
Qed.

(** [strip] removes white space at both ends, and nothing else. *)
Lemma strip_spec (s : string) :
  (∃ a b, s = a +:+ strip s +:+ b ∧ all_space a = true ∧ all_space b = true)
  ∧ trimmed (strip s).
Proof.
  destruct (lstrip_prefix s) as (a & Ha & Hspa).
  destruct (rstrip_suffix (lstrip s)) as (b & Hb & Hspb).
  fold (strip s) in Hb. split.
  - exists a, b. by rewrite <- Hb.
  - split.
    + intros c t Hs. rewrite Hs, string_app_cons in Hb.
      by apply lstrip_head in Hb.
    + intros t c Hs. by apply rstrip_last in Hs.
Qed.

Lemma strip_trimmed (s : string) : trimmed s → strip s = s.
Proof.
  intros [Hhead Hlast]. unfold strip.
  by rewrite (lstrip_id s Hhead), (rstrip_id s Hlast).
Qed.

Lemma strip_idemp (s : string) : strip (strip s) = strip s.
Proof. apply strip_trimmed, strip_spec. Qed.

End Strip.


Section StrippedDescriptions.

Context {cell : Type}.
Variable to_datetime : list cell → cell → option Timestamp.
Variable astype_str : cell → option string.
Variable to_numeric : list cell → cell → float.

Lemma parsed_descriptions (a : args) (csv : DataFrame cell)
    (dates : list Timestamp) (descriptions : list (option string))
    (amounts : list float) :
  parsed to_datetime astype_str to_numeric a csv
    = Ok (dates, descriptions, amounts) →
  ∃ values,
    ("description", values) ∈ renamed csv ∧
    descriptions = (λ c, PyStr.strip <$> astype_str c) <$> values.
Proof.
  unfold parsed.
  destruct (normalize_columns csv) as [df| |] eqn:Hnorm; [|done..].
  apply normalize_columns_inv in Hnorm as [Hin ->]. cbn [mbind outcome_bind].
  destruct (series "date" "ValueError" _) as [raw_dates| |]; [|done..].
  cbn [mbind outcome_bind].
  destruct (existsb _ (to_datetime raw_dates <$> raw_dates)); [done|].
  destruct (series_select csv "description" "AttributeError")
    as [(values & Hl & ->) | [_ ->]];
    [set_solver | by apply Hin; set_solver | | done].
  cbn [mbind outcome_bind].
  destruct (series "amount" "TypeError" _) as [raw_am| |]; [|done..].
  cbn [mbind outcome_bind].
  destruct (existsb is_nan (to_numeric raw_am <$> raw_am)); [done|].
  intros [= _ <- _]. exists values. split; [|done].
  eapply (elem_of_labelled _ "description" ("description", values)).
  rewrite Hl. by left.
Qed.

(** The descriptions a run works with are the cells of the [description]
    column, as text, without the white space around them: every row of the
    categorized table has a description that neither begins nor ends with
    white space and that is the stripped text of a cell of that column. *)
Theorem descriptions_are_stripped (a : args) (rs : rules)
    (csv : DataFrame cell) (df : list txn) :
  categorized to_datetime astype_str to_numeric a rs csv = Ok df →
  Forall
    (λ r, trimmed (description r) ∧
          PyStr.strip (description r) = description r ∧
          ∃ values c text,
            ("description", values) ∈ renamed csv ∧ c ∈ values ∧
            astype_str c = Some text ∧
            description r = PyStr.strip text)
    df.
Proof.
  intros (dates & descriptions & amounts & Hp & Hall)%categorized_rows.
  apply parsed_descriptions in Hp as (values & Hv & ->).
  eapply Forall_impl; [exact Hall|].
  intros r (_ & _ & Hd & _).
  apply list_elem_of_fmap in Hd as (c & Hd & Hc).
  destruct (astype_str c) as [text|] eqn:Htext; [|done].
  injection Hd as ->.
  split_and!; [apply strip_spec | apply strip_idemp |].
  by exists values, c, text.
Qed.

End StrippedDescriptions.

Lemma descriptions_are_stripped_witness :
  ∃ df,
    categorized Text.to_datetime Text.astype_str Text.to_numeric
      {| month := None; invert := false |} default_categories
      [ ("date", ["2024-01-05"]); ("description", ["  KROGER #123 "]);
        ("amount", ["-50.00"]) ] = Ok df
    ∧ Forall (λ r, PyStr.strip (description r) = description r) df.
Proof.
  assert (∃ df,
            categorized Text.to_datetime Text.astype_str Text.to_numeric
              {| month := None; invert := false |} default_categories
              [ ("date", ["2024-01-05"]); ("description", ["  KROGER #123 "]);
                ("amount", ["-50.00"]) ] = Ok df)
    as [df Hdf] by (vm_compute; eauto).
  exists df. split; [exact Hdf|].
  eapply Forall_impl;
    [exact (descriptions_are_stripped Text.to_datetime Text.astype_str
              Text.to_numeric _ _ _ df Hdf)|].
  by intros r (_ & H & _).
Defined.


Section PaddedText.

Import PyStr.

Lemma lstrip_all_space (s : string) : all_space s = true → lstrip s = "".
Proof.
  induction s as [|c s IH]; [done|].
  simpl. intros [-> Hs]%andb_true_iff. by apply IH.
Qed.

Lemma lstrip_app_space (a s : string) :
  all_space a = true → lstrip (a +:+ s) = lstrip s.
Proof.
  induction a as [|c a IH]; [done|].
  rewrite string_app_cons. simpl. intros [-> Ha]%andb_true_iff. by apply IH.
Qed.

Lemma lstrip_app_text (s b : string) :
  all_space s = false → lstrip (s +:+ b) = lstrip s +:+ b.
Proof.
  induction s as [|c s IH]; [done|].
  rewrite string_app_cons. simpl. destruct (is_space c); [|done].
  simpl. apply IH.
Qed.

Lemma rstrip_app_space (s b : string) :
  all_space b = true → rstrip (s +:+ b) = rstrip s.
Proof.
  intros Hb. unfold rstrip. rewrite rev_app_distr.
  rewrite lstrip_app_space; [done|]. by rewrite all_space_rev.
Qed.

(** White space around a text does not survive [strip]. *)
Lemma strip_padded (a s b : string) :
  all_space a = true → all_space b = true →
  strip (a +:+ s +:+ b) = strip s.
Proof.
  intros Ha Hb. unfold strip. rewrite lstrip_app_space by done.
  destruct (all_space s) eqn:Hs.
  - rewrite (lstrip_all_space s Hs).
    rewrite lstrip_all_space; [done|]. by rewrite all_space_app, Hs, Hb.
  - rewrite lstrip_app_text by done. by apply rstrip_app_space.
Qed.

Lemma lower_app (a b : string) : lower (a +:+ b) = lower a +:+ lower b.
Proof.
  induction a as [|c a IH]; [done|].
  rewrite string_app_cons. simpl. by rewrite IH.
Qed.

End PaddedText.

(** The column names count without their letter case and without the white
    space around them: two tables with the same cells, whose column names
    agree once lowered up to white space at both ends, are normalized to the
    same result. *)
Theorem normalize_columns_ignores_case_and_padding {cell : Type}
    (df1 df2 : DataFrame cell) :
  Forall2
    (λ col1 col2,
       col1.2 = col2.2 ∧
       ∃ a b, all_space a = true ∧ all_space b = true ∧
              PyStr.lower col1.1 = a +:+ PyStr.lower col2.1 +:+ b)
    df1 df2 →
  normalize_columns df1 = normalize_columns df2.
Proof.
  intros H.
  assert (renamed df1 = renamed df2) as Hren.
  { rewrite !renamed_eq. induction H as [|[c1 v1] [c2 v2] l1 l2 Hcol _ IH];
      [done|].
    destruct Hcol as (Hv & a & b & Ha & Hb & Hlow).
    rewrite !fmap_cons, IH. simpl in *.
    by rewrite Hlow, strip_padded, Hv. }
  unfold normalize_columns. by rewrite Hren.
Qed.

Lemma normalize_columns_ignores_case_and_padding_witness :
  normalize_columns
    [ ("  DATE", ["2024-01-05"]); ("Memo ", ["KROGER"]);
      (" Amount (USD) ", ["50.00"]) ]
  = normalize_columns
      [ ("date", ["2024-01-05"]); ("memo", ["KROGER"]);
        ("amount (usd)", ["50.00"]) ].
Proof.
  apply normalize_columns_ignores_case_and_padding.
  repeat constructor; simpl.
  - by exists "  ", "".
  - by exists "", " ".
  - by exists " ", " ".
Defined.
